(** * ImageSauce: the image lifecycle controller

    A shallow embedding of [ImageSauce/image_customizer.py] (class
    [ImageCustomizer] and [customize_image_entry_point]) and of the
    [customize-image] sub-command of [imagesauce/cli/__init__.py].

    The program drives external tools against a file system.  The model
    keeps an explicit world (file-system entries, mount table, and the trace
    of every command run and every log record written), an exception monad
    over it, and an environment of oracles that answer for the external
    tools: exit statuses, captured output, and the collaborators
    ([chimg]'s chroot engine, the snap enumerator). *)

From stdpp Require Import gmap strings list fin_maps pretty.
From Stdlib Require Import Ascii ZArith Lia.

Open Scope Z_scope.

(* ===================================================================== *)
(** ** Python text primitives                                             *)
(* ===================================================================== *)

(** Text is modelled as [string]; a character stands for a code point
    below 256, which covers the output of the tools run here. *)

Definition chr (n : nat) : ascii := Ascii.ascii_of_nat n.
Definition ord (c : ascii) : nat := Ascii.nat_of_ascii c.

Definition ord_in (c : ascii) (codes : list nat) : bool :=
  bool_decide (ord c ∈ codes).

(** Line boundaries of [str.splitlines]: LF, VT, FF, CR, FS, GS, RS, NEL. *)
Definition is_linebreak (c : ascii) : bool :=
  ord_in c [10; 11; 12; 13; 28; 29; 30; 133]%nat.

(** White space of [str.split()] without argument. *)
Definition is_whitespace (c : ascii) : bool :=
  ord_in c [9; 10; 11; 12; 13; 28; 29; 30; 31; 32; 133; 160]%nat.

Definition snoc_char (s : string) (c : ascii) : string := s +:+ String c "".

(** [s.splitlines()]: CR LF counts once, and a final boundary opens no
    further (empty) line. *)
Fixpoint splitlines_go (line : option string) (s : string) : list string :=
  match s with
  | "" => option_list line
  | String c rest =>
      if is_linebreak c then
        let cur := default "" line in
        match rest with
        | String c' rest' =>
            if bool_decide (ord c = 13%nat) && bool_decide (ord c' = 10%nat)
            then cur :: splitlines_go None rest'
            else cur :: splitlines_go None rest
        | "" => [cur]
        end
      else splitlines_go (Some (snoc_char (default "" line) c)) rest
  end.
Definition str_splitlines (s : string) : list string := splitlines_go None s.

(** [s.split()]: maximal runs of non-white-space characters. *)
Fixpoint split_go (word : option string) (s : string) : list string :=
  match s with
  | "" => option_list word
  | String c rest =>
      if is_whitespace c then option_list word ++ split_go None rest
      else split_go (Some (snoc_char (default "" word) c)) rest
  end.
Definition str_split (s : string) : list string := split_go None s.

(** [needle in hay]. *)
Fixpoint str_contains (needle hay : string) : bool :=
  String.prefix needle hay ||
  match hay with
  | "" => false
  | String _ rest => str_contains needle rest
  end.

(** [next((f(x) for x in xs if p(x)), None)]. *)
Definition next_where {A B} (p : A → bool) (f : A → B) (xs : list A) : option B :=
  f <$> List.find p xs.

(** [int(s)] for a token without surrounding white space: an optional
    sign, then decimal digits which single underscores may separate.
    [None] stands for the [ValueError]. *)
Definition digit_val (c : ascii) : option Z :=
  let n := ord c in
  if bool_decide (48 ≤ n ≤ 57)%nat then Some (Z.of_nat (n - 48)) else None.

Fixpoint int_digits (acc : Z) (after_digit : bool) (s : string) : option Z :=
  match s with
  | "" => if after_digit then Some acc else None
  | String c rest =>
      match digit_val c with
      | Some d => int_digits (10 * acc + d) true rest
      | None =>
          if bool_decide (ord c = 95%nat) && after_digit
          then int_digits acc false rest
          else None
      end
  end.

Definition py_int (s : string) : option Z :=
  match s with
  | String c rest =>
      if bool_decide (ord c = 43%nat) then int_digits 0 false rest
      else if bool_decide (ord c = 45%nat) then Z.opp <$> int_digits 0 false rest
      else int_digits 0 false s
  | "" => None
  end.

(** Truth value of a [str]. *)
Definition nonempty (s : string) : bool := negb (bool_decide (s = "")).

(* ===================================================================== *)
(** ** Paths ([pathlib], [os.path])                                       *)
(* ===================================================================== *)

(** A path is the string [str(Path(x))] gives: no trailing or doubled
    separator, and ["."] for the empty path. *)

(** Split around the last occurrence of [c]. *)
Fixpoint rsplit_at (c : ascii) (s : string) : option (string * string) :=
  match s with
  | "" => None
  | String a rest =>
      match rsplit_at c rest with
      | Some (before, after) => Some (String a before, after)
      | None => if bool_decide (a = c) then Some ("", rest) else None
      end
  end.

Definition sep : ascii := chr 47.
Definition dot : ascii := chr 46.

(** [PurePath.name]: the final component; empty for ["."] and ["/"]. *)
Definition path_name (p : string) : string :=
  if bool_decide (p = ".") then ""
  else match rsplit_at sep p with
       | Some (_, name) => name
       | None => p
       end.

(** Everything before the final component, separator included. *)
Definition path_anchor (p : string) : string :=
  match rsplit_at sep p with
  | Some (parent, _) => snoc_char parent sep
  | None => ""
  end.

(** [PurePath.suffix] of a name: from the last dot, unless that dot is the
    first or the last character. *)
Definition name_stem (name : string) : string :=
  match rsplit_at dot name with
  | Some (stem, ext) => if nonempty stem && nonempty ext then stem else name
  | None => name
  end.

(** [os.path.join(a, b)] for a relative [b]. *)
Definition os_path_join (a b : string) : string :=
  if nonempty a then
    match rsplit_at sep a with
    | Some (_, "") => a +:+ b
    | _ => a +:+ "/" +:+ b
    end
  else b.

(** [os.path.dirname]. *)
Definition os_path_dirname (p : string) : string :=
  match rsplit_at sep p with
  | Some ("", _) => "/"
  | Some (parent, _) => parent
  | None => ""
  end.

(** [p] lies below the directory [d]. *)
Definition under (d p : string) : bool := String.prefix (os_path_join d "") p.

(** A value that may be [None], a [str] or a [Path], as the optional path
    arguments are. *)
Inductive pyval :=
| PyNone
| PyStr (s : string)
| PyPath (s : string).

Definition truthy (v : pyval) : bool :=
  match v with
  | PyNone => false
  | PyStr s => nonempty s
  | PyPath _ => true
  end.

(** [str(v)]. *)
Definition py_str (v : pyval) : string :=
  match v with
  | PyNone => "None"
  | PyStr s => s
  | PyPath s => s
  end.

(* ===================================================================== *)
(** ** Exceptions                                                         *)
(* ===================================================================== *)

Inductive exn :=
| FileExistsError (msg : string)
| FileNotFoundError (msg : string)
| ValueError (msg : string)
| IndexError (msg : string)
| RuntimeError (msg : string) (cause : option exn)
| CalledProcessError (cmd : list string) (returncode : Z)
| SystemExit (code : Z)
(** raised by the operating system or by a collaborator; [is_exception]
    tells whether its class derives from [Exception] *)
| Foreign (is_exception : bool) (what : string).

(** [isinstance(e, Exception)]: [SystemExit] derives from [BaseException]
    only. *)
Definition is_Exception (e : exn) : bool :=
  match e with
  | SystemExit _ => false
  | Foreign b _ => b
  | _ => true
  end.

Definition is_CalledProcessError (e : exn) : bool :=
  match e with
  | CalledProcessError _ _ => true
  | _ => false
  end.

(** [repr] of a list of [str] (no quote or backslash inside). *)
Definition repr_list (xs : list string) : string :=
  "[" +:+ foldr (λ x acc, "'" +:+ x +:+ "'" +:+
                   (if bool_decide (acc = "") then "" else ", ") +:+ acc) "" xs +:+ "]".

(** [str(e)]. *)
Definition exn_str (e : exn) : string :=
  match e with
  | FileExistsError m | FileNotFoundError m | ValueError m | IndexError m => m
  | RuntimeError m _ => m
  | CalledProcessError c rc =>
      "Command '" +:+ repr_list c +:+ "' returned non-zero exit status " +:+ pretty rc +:+ "."
  | SystemExit c => pretty c
  | Foreign _ w => w
  end.

(* ===================================================================== *)
(** ** The world                                                          *)
(* ===================================================================== *)

(** A file-system entry.  A symbolic link records the path it resolves to. *)
Inductive node :=
| Dir
| File (content : string)
| Symlink (target : string).

Global Instance node_eq_dec : EqDecision node.
Proof. solve_decision. Defined.

Inductive cmd :=
| FileType (p : string)
| QemuImgConvert (src_fmt dst_fmt src dst : string)
| FdiskList (image : string)
| SudoMount (offset : Z) (image target : string)
| SudoCpArchive (src dst : string)
| SudoRmForce (p : string)
| SudoCp (src dst : string)
| SudoLsLong (p : string)
| SudoMv (src dst : string)
| SudoUmount (target : string)
| Sleep (secs : string)
| DpkgQueryShow (chroot_root stdout_file : string)
| FindXdev (cwd stdout_file : string)
| SortInPlace (f : string)
| SnapInstallCpcSbom
| CpcSbom (rootdir document_name stdout_file stderr_file : string).

(** The argument vector handed to [subprocess]. *)
Definition argv (c : cmd) : list string :=
  match c with
  | FileType p => ["file"; p]
  | QemuImgConvert f t src dst => ["qemu-img"; "convert"; "-f"; f; "-O"; t; src; dst]
  | FdiskList image => ["fdisk"; "-l"; image]
  | SudoMount offset image target =>
      ["sudo"; "mount"; "-o"; "loop,offset=" +:+ pretty offset; image; target]
  | SudoCpArchive src dst => ["sudo"; "cp"; "-a"; src; dst]
  | SudoRmForce p => ["sudo"; "rm"; "-f"; p]
  | SudoCp src dst => ["sudo"; "cp"; src; dst]
  | SudoLsLong p => ["sudo"; "ls"; "-l"; p]
  | SudoMv src dst => ["sudo"; "mv"; src; dst]
  | SudoUmount target => ["sudo"; "umount"; target]
  | Sleep secs => ["sleep"; secs]
  | DpkgQueryShow root _ => ["dpkg-query"; "--show"; "--admindir=" +:+ root +:+ "/var/lib/dpkg"]
  | FindXdev _ _ => ["find"; "-xdev"]
  | SortInPlace f => ["sort"; "-o"; f; f]
  | SnapInstallCpcSbom => ["sudo"; "snap"; "install"; "--classic"; "--edge"; "cpc-sbom"]
  | CpcSbom rootdir name _ _ =>
      ["cpc-sbom"; "--rootdir"; rootdir; "--ignore-copyright-parsing-errors";
       "--ignore-copyright-file-not-found-errors"; "--document-name"; name]
  end.

(** File operations done through the Python library. *)
Inductive os_op :=
| OsRemove (p : string)
| OsMakedirs (p : string)
| ShutilCopy (src dst : string)
| OpenWrite (p : string)
| OpenRead (p : string).

Inductive level := Debug | Info | Warning | Error.

Inductive event :=
| Run (c : cmd)
| Os (op : os_op)
| ChimgApply (config rootfs : string)
| SnapSeedParse (chroot_path output_file : string)
| Log (lvl : level) (msg : string).

Global Instance cmd_eq_dec : EqDecision cmd.
Proof. solve_decision. Defined.
Global Instance os_op_eq_dec : EqDecision os_op.
Proof. solve_decision. Defined.
Global Instance level_eq_dec : EqDecision level.
Proof. solve_decision. Defined.
Global Instance event_eq_dec : EqDecision event.
Proof. solve_decision. Defined.

Record World := mkWorld {
  fs : gmap string node;
  mounts : gset string;
  trace : list event;
}.

Definition set_fs (f : gmap string node → gmap string node) (w : World) : World :=
  mkWorld (f (fs w)) (mounts w) (trace w).
Definition set_mounts (f : gset string → gset string) (w : World) : World :=
  mkWorld (fs w) (f (mounts w)) (trace w).
Definition record (ev : event) (w : World) : World :=
  mkWorld (fs w) (mounts w) (trace w ++ [ev]).

(** Follow symbolic links, as [stat] does; Linux gives up after 40. *)
Fixpoint resolve (fuel : nat) (m : gmap string node) (p : string) : option node :=
  match m !! p with
  | Some (Symlink t) =>
      match fuel with
      | O => None
      | S n => resolve n m t
      end
  | found => found
  end.
Definition stat (m : gmap string node) (p : string) : option node := resolve 40 m p.

Definition os_path_lexists (w : World) (p : string) : bool := bool_decide (is_Some (fs w !! p)).
Definition os_path_exists (w : World) (p : string) : bool := bool_decide (is_Some (stat (fs w) p)).
Definition os_path_isfile (w : World) (p : string) : bool :=
  match stat (fs w) p with
  | Some (File _) => true
  | _ => false
  end.
Definition read_text (m : gmap string node) (p : string) : option string :=
  match stat m p with
  | Some (File c) => Some c
  | _ => None
  end.

(** The entries below, and not below, a directory. *)
Definition below (d : string) (m : gmap string node) : gmap string node :=
  filter (λ kv, under d kv.1 = true) m.
Definition outside (d : string) (m : gmap string node) : gmap string node :=
  filter (λ kv, under d kv.1 = false) m.

(** What the external tools and collaborators answer.  Each oracle sees
    the whole world, trace included, so an answer may depend on anything
    that happened before. *)
Record Env := mkEnv {
  exit_status : cmd → World → Z;
  stdout_of : cmd → World → string;
  stderr_of : cmd → World → string;
  (** the tree a loop mount of [image] at [offset] makes visible *)
  loop_tree : string → Z → World → gmap string node;
  (** [qemu-img convert -f a -O b] on a file content *)
  qemu_convert : string → string → string → string;
  (** [sort] on a file content *)
  sort_lines : string → string;
  (** [shutil.which(name) is not None] *)
  which : string → World → bool;
  (** a library file operation that the operating system refuses *)
  os_fault : os_op → World → option exn;
  (** [Chroot(Context(config, rootfs)).apply()] of chimg: the file system
      it leaves and the exception it ends with, if any *)
  chimg_apply : string → string → World → gmap string node * option exn;
  (** Modelled from the spec: [snap_seed_parse.main(chroot_path,
      output_file)] belongs to this package but is not among the sources
      read here.  The spec has it append or merge the snap inventory into
      the manifest file it is given: the oracle maps the text of that file
      to its new text, or fails. *)
  snap_seed_parse_main : string → string → World → (string → string) + exn;
}.

(* ===================================================================== *)
(** ** Computations: state and exceptions                                 *)
(* ===================================================================== *)

Inductive result (Σ A : Type) :=
| Ok (a : A) (σ : Σ)
| Raise (e : exn) (σ : Σ).
Arguments Ok {Σ A} a σ.
Arguments Raise {Σ A} e σ.

Definition M (Σ A : Type) : Type := Σ → result Σ A.

Definition ret {Σ A} (a : A) : M Σ A := λ σ, Ok a σ.
Definition raise {Σ A} (e : exn) : M Σ A := λ σ, Raise e σ.
Definition bind {Σ A B} (m : M Σ A) (k : A → M Σ B) : M Σ B :=
  λ σ, match m σ with
       | Ok a σ' => k a σ'
       | Raise e σ' => Raise e σ'
       end.

(** [try: body / except C as e: handler e], where [catches] decides
    [isinstance(e, C)]. *)
Definition try_except {Σ A} (catches : exn → bool) (body : M Σ A) (handler : exn → M Σ A)
    : M Σ A :=
  λ σ, match body σ with
       | Ok a σ' => Ok a σ'
       | Raise e σ' => if catches e then handler e σ' else Raise e σ'
       end.

Definition state_of {Σ A} (r : result Σ A) : Σ :=
  match r with
  | Ok _ σ => σ
  | Raise _ σ => σ
  end.

Declare Scope prog_scope.
Delimit Scope prog_scope with prog.
Notation "x ← y ; z" := (bind y (λ x : _, z))
  (at level 20, y at level 100, z at level 200, only parsing) : prog_scope.
Notation "x ;; z" := (bind x (λ _, z))
  (at level 100, z at level 200, only parsing, right associativity) : prog_scope.
Open Scope prog_scope.

(** [if c: body] *)
Definition when {Σ} (c : bool) (body : M Σ unit) : M Σ unit :=
  if c then body else ret ().

(** [for x in xs: body x] *)
Fixpoint for_each {Σ A} (xs : list A) (body : A → M Σ unit) : M Σ unit :=
  match xs with
  | [] => ret ()
  | x :: rest => body x ;; for_each rest body
  end.

Definition ask {Σ A} (f : Σ → A) : M Σ A := λ σ, Ok (f σ) σ.

Definition lift_exn {Σ A} (r : exn + A) : M Σ A :=
  match r with
  | inl e => raise e
  | inr a => ret a
  end.

(* ===================================================================== *)
(** ** Operations on the world                                            *)
(* ===================================================================== *)

Record CompletedProcess := mkCompleted {
  returncode : Z;
  stdout : string;
}.

Section Operations.
Context (E : Env).

Definition log (lvl : level) (msg : string) : M World unit :=
  λ w, Ok () (record (Log lvl msg) w).

(** What a library file operation does when the system lets it. *)
Definition os_effect (op : os_op) (w : World) : exn + World :=
  match op with
  | OsRemove p =>
      match fs w !! p with
      | Some _ => inr (set_fs (delete p) w)
      | None => inl (FileNotFoundError p)
      end
  | OsMakedirs p =>
      match fs w !! p with
      | None => inr (set_fs <[p := Dir]> w)
      | Some _ =>
          match stat (fs w) p with
          | Some Dir => inr w
          | _ => inl (FileExistsError p)
          end
      end
  | ShutilCopy src dst =>
      match read_text (fs w) src with
      | Some c => inr (set_fs <[dst := File c]> w)
      | None => inl (FileNotFoundError src)
      end
  | OpenWrite p => inr (set_fs <[p := File ""]> w)
  | OpenRead p =>
      match read_text (fs w) p with
      | Some _ => inr w
      | None => inl (FileNotFoundError p)
      end
  end.

Definition os_call (op : os_op) : M World unit :=
  λ w, match os_fault E op w with
       | Some e => Raise e (record (Os op) w)
       | None =>
           match os_effect op w with
           | inr w' => Ok () (record (Os op) w')
           | inl e => Raise e (record (Os op) w)
           end
       end.

Definition os_remove (p : string) : M World unit := os_call (OsRemove p).
Definition os_makedirs (p : string) : M World unit := os_call (OsMakedirs p).
Definition shutil_copy (src dst : string) : M World unit := os_call (ShutilCopy src dst).
Definition open_write (p : string) : M World unit := os_call (OpenWrite p).
Definition open_read (p : string) : M World string :=
  os_call (OpenRead p) ;; ask (λ w, default "" (read_text (fs w) p)).

(** What a command does to the file system and the mount table, given
    its exit status.  A command that fails leaves both alone, except
    that output redirected to a file is written whatever the status. *)
Definition cmd_effect (c : cmd) (rc : Z) (w : World) : World :=
  let ok := bool_decide (rc = 0) in
  match c with
  | QemuImgConvert f t src dst =>
      match read_text (fs w) src with
      | Some content =>
          if ok then set_fs <[dst := File (qemu_convert E f t content)]> w else w
      | None => w
      end
  | SudoMount offset image target =>
      if ok then
        set_mounts (λ ms, {[target]} ∪ ms)
          (set_fs (λ m, below target (loop_tree E image offset w) ∪ outside target m) w)
      else w
  | SudoCpArchive src dst =>
      match fs w !! src with
      | Some n => if ok then set_fs <[dst := n]> w else w
      | None => w
      end
  | SudoRmForce p => if ok then set_fs (delete p) w else w
  | SudoCp src dst =>
      match read_text (fs w) src with
      | Some content => if ok then set_fs <[dst := File content]> w else w
      | None => w
      end
  | SudoMv src dst =>
      match fs w !! src with
      | Some n => if ok then set_fs (λ m, <[dst := n]> (delete src m)) w else w
      | None => w
      end
  | SudoUmount target =>
      if ok then set_mounts (λ ms, ms ∖ {[target]}) (set_fs (outside target) w) else w
  | DpkgQueryShow _ out => set_fs <[out := File (stdout_of E c w)]> w
  | FindXdev _ out => set_fs <[out := File (stdout_of E c w)]> w
  | SortInPlace f =>
      match read_text (fs w) f with
      | Some content => if ok then set_fs <[f := File (sort_lines E content)]> w else w
      | None => w
      end
  | CpcSbom _ _ out err =>
      set_fs (λ m, <[err := File (stderr_of E c w)]> (<[out := File (stdout_of E c w)]> m)) w
  | FileType _ | FdiskList _ | SudoLsLong _ | Sleep _ | SnapInstallCpcSbom => w
  end.

(** [subprocess.run(argv)] *)
Definition subprocess_run (c : cmd) : M World CompletedProcess :=
  λ w, let rc := exit_status E c w in
       Ok (mkCompleted rc (stdout_of E c w)) (record (Run c) (cmd_effect c rc w)).

(** [subprocess.run(argv, check=True)] *)
Definition subprocess_run_check (c : cmd) : M World unit :=
  p ← subprocess_run c;
  if bool_decide (returncode p = 0) then ret ()
  else raise (CalledProcessError (argv c) (returncode p)).

(** [subprocess.check_output(argv).decode()] *)
Definition subprocess_check_output (c : cmd) : M World string :=
  p ← subprocess_run c;
  if bool_decide (returncode p = 0) then ret (stdout p)
  else raise (CalledProcessError (argv c) (returncode p)).

(** [Chroot(Context(config, rootfs)).apply()] *)
Definition chroot_apply (config rootfs : string) : M World unit :=
  λ w, let w' := record (ChimgApply config rootfs)
                   (set_fs (λ _, (chimg_apply E config rootfs w).1) w) in
       match (chimg_apply E config rootfs w).2 with
       | Some e => Raise e w'
       | None => Ok () w'
       end.

(** [snap_seed_parse.main(chroot_path=.., output_file=..)] *)
Definition snap_seed_parse (chroot_path output_file : string) : M World unit :=
  λ w, match snap_seed_parse_main E chroot_path output_file w with
       | inl f =>
           Ok () (record (SnapSeedParse chroot_path output_file)
                    (set_fs <[output_file :=
                                File (f (default "" (read_text (fs w) output_file)))]> w))
       | inr e => Raise e (record (SnapSeedParse chroot_path output_file) w)
       end.
End Operations.

(* ===================================================================== *)
(** ** class ImageCustomizer                                              *)
(* ===================================================================== *)

Record ImageCustomizer := mkImageCustomizer {
  input_image_file : string;
  output_image_path : string;
  target_mount_point : string;
  chimg_config_file : string;
  overwrite : bool;
  modified_image_file : string;
  output_files_name : string;
  input_image_type : string;
  resolv_conf_existed : bool;
}.

(** The state a method runs in: the object and the world. *)
Record St := mkSt {
  self : ImageCustomizer;
  world : World;
}.

Definition liftW {A} (m : M World A) : M St A :=
  λ σ, match m (world σ) with
       | Ok a w => Ok a (mkSt (self σ) w)
       | Raise e w => Raise e (mkSt (self σ) w)
       end.

(** Run a method on an object and let go of the object afterwards. *)
Definition on_object {A} (obj : ImageCustomizer) (m : M St A) : M World A :=
  λ w, match m (mkSt obj w) with
       | Ok a σ => Ok a (world σ)
       | Raise e σ => Raise e (world σ)
       end.

Definition get_self : M St ImageCustomizer := ask self.

Definition set_input_image_type (t : string) : M St unit :=
  λ σ, let s := self σ in
       Ok () (mkSt (mkImageCustomizer (input_image_file s) (output_image_path s)
                      (target_mount_point s) (chimg_config_file s) (overwrite s)
                      (modified_image_file s) (output_files_name s)
                      t (resolv_conf_existed s)) (world σ)).

Definition set_resolv_conf_existed (b : bool) : M St unit :=
  λ σ, let s := self σ in
       Ok () (mkSt (mkImageCustomizer (input_image_file s) (output_image_path s)
                      (target_mount_point s) (chimg_config_file s) (overwrite s)
                      (modified_image_file s) (output_files_name s)
                      (input_image_type s) b) (world σ)).

(** [Path.with_suffix]: replaces the suffix of the final component, and
    refuses a path that has none. *)
Definition with_suffix (p suffix : string) : exn + string :=
  let name := path_name p in
  if nonempty name then inr (path_anchor p +:+ name_stem name +:+ suffix)
  else inl (ValueError ("PosixPath('" +:+ p +:+ "') has an empty name")).

(** The [Namespace] handed to [do_chrootfs]. *)
Module Namespace.
Record t := mk {
  config : string;
  rootfspath : string;
  output_files_name : pyval;
  generate_sbom : bool;
  overwrite : bool;
}.
End Namespace.

(** The artifact names [create_manifest] derives from its base path. *)
Definition sbom_document_name (base_output_path : string) : string :=
  base_output_path +:+ ".sbom".
Definition sbom_file_name (base_output_path : string) : string :=
  base_output_path +:+ ".sbom.spdx".
Definition sbom_log_path (base_output_path : string) (sbom_log : pyval) : string :=
  if nonempty (py_str sbom_log) then py_str sbom_log else base_output_path +:+ ".sbom.log".
Definition manifest_file (base_output_path : string) : string :=
  base_output_path +:+ ".manifest".
Definition filelist_file (base_output_path : string) : string :=
  base_output_path +:+ ".filelist".

Definition resolv_path (mount_point : string) : string :=
  os_path_join (os_path_join mount_point "etc") "resolv.conf".
Definition backup_path (mount_point : string) : string :=
  resolv_path mount_point +:+ ".bak".

(** The text processing of [_get_partition_offset], on the output of
    [fdisk -l]. *)
Definition index_token (line : string) (i : nat) : exn + string :=
  match str_split line !! i with
  | Some tok => inr tok
  | None => inl (IndexError "list index out of range")
  end.

(** A value that is present: [Some] over the successful case. *)
Definition present {A} (r : exn + A) : exn + option A :=
  match r with
  | inl e => inl e
  | inr a => inr (Some a)
  end.

Definition int_of (tok : string) : exn + Z :=
  match py_int tok with
  | Some z => inr z
  | None => inl (ValueError ("invalid literal for int() with base 10: '" +:+ tok +:+ "'"))
  end.

Definition first_line_with (marker text : string) : option string :=
  List.find (str_contains marker) (str_splitlines text).

Definition partition_offset (fdisk_output : string) : exn + Z :=
  let start_line := first_line_with "Linux filesystem" fdisk_output in
  match (match start_line with
         | Some line => present (index_token line 1)
         | None => inr None
         end) with
  | inl e => inl e
  | inr start_sector =>
      let sector_size_line := first_line_with "Sector size" fdisk_output in
      match (match sector_size_line with
             | Some line => if nonempty line then present (index_token line 3) else inr None
             | None => inr None
             end) with
      | inl e => inl e
      | inr sector_size =>
          match start_sector, sector_size with
          | Some start, Some size =>
              if nonempty start && nonempty size then
                match int_of start with
                | inl e => inl e
                | inr a =>
                    match int_of size with
                    | inl e => inl e
                    | inr b => inr (a * b)
                    end
                end
              else inl (RuntimeError "Error: Could not determine partition offset!" None)
          | _, _ => inl (RuntimeError "Error: Could not determine partition offset!" None)
          end
      end
  end.

Section Methods.
Context (E : Env).

Definition __init__ (input_image_file output_image_path target_mount_point
                       chimg_config_file : string) (overwrite : bool)
    : M World ImageCustomizer :=
  modified ← lift_exn (with_suffix input_image_file ".modifying");
  names ← lift_exn (with_suffix output_image_path "");
  let obj := mkImageCustomizer input_image_file output_image_path target_mount_point
               chimg_config_file overwrite modified names "" false in
  exists_ ← ask (λ w, os_path_exists w output_image_path);
  if exists_ && negb overwrite then
    raise (FileExistsError ("Error: Output image file '" +:+ output_image_path +:+
                            "' already exists! Use overwrite=True to overwrite."))
  else ret obj.

Definition _ensure_paths : M St unit :=
  s ← get_self;
  when (nonempty (os_path_dirname (input_image_file s)))
    (liftW (os_makedirs E (os_path_dirname (modified_image_file s)))) ;;
  liftW (os_makedirs E (target_mount_point s)).

Definition _remove_existing_modified_image : M St unit :=
  s ← get_self;
  exists_ ← ask (λ σ, os_path_exists (world σ) (modified_image_file s));
  when exists_
    (liftW (os_remove E (modified_image_file s)) ;;
     liftW (log Info "Removed existing modified image file")).

Definition _validate_input_image_exists : M St unit :=
  s ← get_self;
  isfile ← ask (λ σ, os_path_isfile (world σ) (input_image_file s));
  when (negb isfile)
    (raise (FileNotFoundError ("Error: Input image file '" +:+ input_image_file s +:+
                               "' not found!"))).

Definition _convert_or_copy_image : M St unit :=
  s ← get_self;
  file_info ← liftW (subprocess_check_output E (FileType (input_image_file s)));
  (if str_contains "QCOW" file_info then
     liftW (log Info "Converting input qcow2 image to raw image...") ;;
     liftW (subprocess_run_check E
              (QemuImgConvert "qcow2" "raw" (input_image_file s) (modified_image_file s))) ;;
     set_input_image_type "qcow2"
   else
     liftW (log Info ("Image is already raw. Copying to " +:+ modified_image_file s)) ;;
     liftW (shutil_copy E (input_image_file s) (modified_image_file s)) ;;
     set_input_image_type "raw") ;;
  liftW (log Info ("Converted or copied image for modifying to: " +:+ modified_image_file s)).

Definition _get_partition_offset : M St Z :=
  s ← get_self;
  fdisk_output ← liftW (subprocess_check_output E (FdiskList (modified_image_file s)));
  lift_exn (partition_offset fdisk_output).

Definition _mount_image (offset : Z) : M St unit :=
  s ← get_self;
  result ← liftW (subprocess_run E
                    (SudoMount offset (modified_image_file s) (target_mount_point s)));
  when (negb (bool_decide (returncode result = 0)))
    (raise (RuntimeError "Error: Failed to mount the image." None)) ;;
  liftW (log Info ("Mounted successfully at " +:+ target_mount_point s)).

Definition _handle_resolv_conf : M St unit :=
  s ← get_self;
  let resolv := resolv_path (target_mount_point s) in
  let backup := backup_path (target_mount_point s) in
  lexists ← ask (λ σ, os_path_lexists (world σ) resolv);
  when lexists
    (liftW (log Info "Backing up existing resolv.conf (may be a symlink)") ;;
     try_except is_CalledProcessError
       (liftW (subprocess_run_check E (SudoCpArchive resolv backup)) ;;
        set_resolv_conf_existed true)
       (λ _, liftW (log Warning "Failed to backup resolv.conf. Proceeding without backup.") ;;
             set_resolv_conf_existed false) ;;
     liftW (subprocess_run_check E (SudoRmForce resolv))) ;;
  liftW (subprocess_run_check E (SudoCp "/etc/resolv.conf" resolv)) ;;
  _ ← liftW (subprocess_run E (SudoLsLong resolv));
  ret ().

Definition _restore_resolv_conf : M St unit :=
  s ← get_self;
  let resolv := resolv_path (target_mount_point s) in
  let backup := backup_path (target_mount_point s) in
  backup_exists ← ask (λ σ, os_path_exists (world σ) backup);
  if resolv_conf_existed s && backup_exists then
    liftW (log Info "Restoring original resolv.conf") ;;
    liftW (subprocess_run_check E (SudoRmForce resolv)) ;;
    liftW (subprocess_run_check E (SudoMv backup resolv))
  else
    liftW (log Info "Removing temporary resolv.conf") ;;
    liftW (subprocess_run_check E (SudoRmForce resolv)).

Definition _unmount_image : M St unit :=
  s ← get_self;
  liftW (log Info "Unmounting image...") ;;
  liftW (subprocess_run_check E (SudoUmount (target_mount_point s))) ;;
  _ ← liftW (subprocess_run E (Sleep "1"));
  ret ().

Definition _produce_final_image : M St unit :=
  s ← get_self;
  out_exists ← ask (λ σ, os_path_exists (world σ) (output_image_path s));
  when out_exists
    (liftW (os_remove E (output_image_path s)) ;;
     liftW (log Info "Removed existing output image file")) ;;
  (if bool_decide (input_image_type s = "qcow2") then
     liftW (log Info ("Converting raw image back to qcow2 at: " +:+ output_image_path s)) ;;
     liftW (subprocess_run_check E
              (QemuImgConvert "raw" "qcow2" (modified_image_file s) (output_image_path s)))
   else
     liftW (log Info ("Copying raw image to: " +:+ output_image_path s)) ;;
     liftW (shutil_copy E (modified_image_file s) (output_image_path s))) ;;
  liftW (os_remove E (modified_image_file s)) ;;
  still_there ← ask (λ σ, os_path_exists (world σ) (modified_image_file s));
  (if still_there then liftW (log Warning "Failed to remove modified image file.")
   else liftW (log Info "Removed temporary interim modified image file successfully.")) ;;
  liftW (log Info ("New image is available at: " +:+ output_image_path s)).

Definition setup : M St unit :=
  liftW (log Info "Setting up image customizer...") ;;
  _ensure_paths ;;
  _remove_existing_modified_image ;;
  _validate_input_image_exists ;;
  _convert_or_copy_image ;;
  offset ← _get_partition_offset;
  _mount_image offset ;;
  _handle_resolv_conf ;;
  liftW (log Info "Image customizer setup complete!").

Definition create_final_image : M St unit :=
  liftW (log Info "Creating final image...") ;;
  _restore_resolv_conf ;;
  _unmount_image ;;
  _produce_final_image ;;
  liftW (log Info "Done!").
End Methods.

Section Lifecycle.
Context (E : Env).

(** The collision check [create_manifest] makes for one artifact. *)
Definition check_artifact (overwrite : bool) (file : string) : M St unit :=
  exists_ ← ask (λ σ, os_path_exists (world σ) file);
  if exists_ && negb overwrite then
    liftW (log Error ("File " +:+ file +:+
                      " already exists. Use --overwrite to overwrite existing files.")) ;;
    raise (SystemExit 1)
  else if exists_ && overwrite then
    liftW (log Warning ("File " +:+ file +:+ " already exists. Overwriting...")) ;;
    liftW (os_remove E file)
  else ret ().

(** The SBOM step of [create_manifest]. *)
Definition generate_sbom_step (chroot_root base_output_path sbom_log : string) : M St unit :=
  have_tool ← ask (λ σ, which E "cpc-sbom" (world σ));
  when (negb have_tool) (liftW (subprocess_run_check E SnapInstallCpcSbom)) ;;
  liftW (open_write E (sbom_file_name base_output_path)) ;;
  liftW (open_write E sbom_log) ;;
  result ← liftW (subprocess_run E
                    (CpcSbom chroot_root (sbom_document_name base_output_path)
                       (sbom_file_name base_output_path) sbom_log));
  if negb (bool_decide (returncode result = 0)) then
    liftW (log Error "ERROR: SBOM generation failed.") ;;
    text ← liftW (open_read E sbom_log);
    liftW (log Debug text) ;;
    raise (SystemExit 1)
  else liftW (log Info "SBOM generation succeeded!").

Definition create_manifest (base_output_path : pyval) (generate_sbom : bool)
    (sbom_log : pyval) (overwrite : bool) : M St unit :=
  s ← get_self;
  let base_output_path := py_str base_output_path in
  let chroot_root := target_mount_point s in
  let sbom_log := sbom_log_path base_output_path sbom_log in
  let manifest := manifest_file base_output_path in
  let filelist := filelist_file base_output_path in
  for_each [manifest; filelist; sbom_file_name base_output_path]
    (check_artifact overwrite) ;;
  liftW (log Info "Adding packages to manifest...") ;;
  liftW (open_write E manifest) ;;
  liftW (subprocess_run_check E (DpkgQueryShow chroot_root manifest)) ;;
  liftW (log Info "Adding snaps to manifest...") ;;
  liftW (log Debug "Calling snap_seed_parse module") ;;
  liftW (snap_seed_parse E chroot_root manifest) ;;
  liftW (log Debug "Finished calling snap_seed_parse module") ;;
  liftW (log Info ("Manifest generated: " +:+ manifest)) ;;
  liftW (log Info "Generating filelist...") ;;
  liftW (open_write E filelist) ;;
  liftW (subprocess_run_check E (FindXdev chroot_root filelist)) ;;
  liftW (subprocess_run_check E (SortInPlace filelist)) ;;
  liftW (log Info ("Filelist generated: " +:+ filelist)) ;;
  when generate_sbom (generate_sbom_step chroot_root base_output_path sbom_log) ;;
  liftW (log Info "Done creating manifest and filelist!").

Definition do_chrootfs (args : Namespace.t) : M St unit :=
  config_exists ← ask (λ σ, os_path_exists (world σ) (Namespace.config args));
  when (negb config_exists)
    (liftW (log Error ("config file " +:+ Namespace.config args +:+ " does not exist")) ;;
     raise (SystemExit 1)) ;;
  rootfs_exists ← ask (λ σ, os_path_exists (world σ) (Namespace.rootfspath args));
  when (negb rootfs_exists)
    (liftW (log Error ("rootfs path " +:+ Namespace.rootfspath args +:+ " does not exist")) ;;
     raise (SystemExit 1)) ;;
  liftW (chroot_apply E (Namespace.config args) (Namespace.rootfspath args)) ;;
  when ((Namespace.generate_sbom args || Namespace.overwrite args)
        && negb (truthy (Namespace.output_files_name args)))
    (liftW (log Error
              "If --generate-sbom or --overwrite is set, --output-files-name must be specified.") ;;
     raise (SystemExit 1)) ;;
  when (truthy (Namespace.output_files_name args))
    (create_manifest (Namespace.output_files_name args) (Namespace.generate_sbom args)
       PyNone (Namespace.overwrite args)).

(** The [Namespace] that [main] builds. *)
Definition main_args (s : ImageCustomizer) : Namespace.t :=
  Namespace.mk (chimg_config_file s) (target_mount_point s)
    (PyPath (output_files_name s)) false (overwrite s).

(** The body of the [try] in [main]. *)
Definition delegate_and_manifest : M St unit :=
  s ← get_self;
  do_chrootfs (main_args s) ;;
  liftW (log Info ("Successfully invoked chimg chrootfs with config file: " +:+
                   chimg_config_file s)).

(** Its [except Exception as e] handler: cleanup on failure. *)
Definition cleanup_on_failure (e : exn) : M St unit :=
  _unmount_image E ;;
  _remove_existing_modified_image E ;;
  raise (RuntimeError ("Chimg logic failed: " +:+ exn_str e) (Some e)).

Definition main : M St unit :=
  setup E ;;
  try_except is_Exception delegate_and_manifest cleanup_on_failure ;;
  create_final_image E.
End Lifecycle.

(** The arguments of the [customize-image] sub-command, as [_parser]
    declares them: four positional paths and [--overwrite]. *)
Module cli.
Record customize_image_args := mk {
  input_image_file : string;
  output_image_path : string;
  target_mount_point : string;
  chimg_config_file : string;
  overwrite : bool;
}.
End cli.

Definition customize_image_entry_point (E : Env) (args : cli.customize_image_args)
    : M World unit :=
  config_exists ← ask (λ w, os_path_exists w (cli.chimg_config_file args));
  when (negb config_exists)
    (log Error ("chimg config file " +:+ cli.chimg_config_file args +:+ " does not exist") ;;
     raise (SystemExit 1)) ;;
  input_exists ← ask (λ w, os_path_exists w (cli.input_image_file args));
  when (negb input_exists)
    (log Error ("input image file " +:+ cli.input_image_file args +:+ " does not exist") ;;
     raise (SystemExit 1)) ;;
  customizer ← __init__ (cli.input_image_file args) (cli.output_image_path args)
                 (cli.target_mount_point args) (cli.chimg_config_file args)
                 (cli.overwrite args);
  on_object customizer (main E).

(* ===================================================================== *)
(** ** Concrete runs                                                      *)
(* ===================================================================== *)

Module Scenario.
(** The partition table of a cloud image, as [fdisk -l] prints it. *)
Definition fdisk_sample : string :=
"Disk in.modifying: 2.2 GiB, 2361393152 bytes, 4612096 sectors
Units: sectors of 1 * 512 = 512 bytes
Sector size (logical/physical): 512 bytes / 512 bytes
I/O size (minimum/optimal): 512 bytes / 512 bytes
Disklabel type: gpt

Device          Start     End Sectors  Size Type
in.modifying1    2048 4612062 4610015  2.2G Linux filesystem
in.modifying14   1024    2047    1024  512K BIOS boot
".

Definition tool_output (c : cmd) : string :=
  match c with
  | FileType _ => "in.qcow2: QEMU QCOW2 Image (v3), 2361393152 bytes"
  | FdiskList _ => fdisk_sample
  | DpkgQueryShow _ _ => "bash 5.1-6ubuntu1"
  | FindXdev _ _ => "./etc"
  | _ => ""
  end.

(** An environment where every tool exits with [status], the mounted
    image shows [tree], the chroot engine ends with [delegate_error],
    and the system refuses the file operations [fault] names. *)
Definition env (tree : gmap string node) (status : cmd → Z)
    (delegate_error : option exn) (fault : os_op → option exn) : Env :=
  {| exit_status := λ c _, status c;
     stdout_of := λ c _, tool_output c;
     stderr_of := λ _ _, "";
     loop_tree := λ _ _ _, tree;
     qemu_convert := λ _ t content, t +:+ ":" +:+ content;
     sort_lines := λ content, content;
     which := λ _ _, true;
     os_fault := λ op _, fault op;
     chimg_apply := λ _ _ w, (fs w, delegate_error);
     snap_seed_parse_main := λ _ _ _, inl (λ text, text +:+ " core22") |}.

Definition all_succeed : cmd → Z := λ _, 0.
Definition no_fault : os_op → option exn := λ _, None.

(** The host before the run: the input image, the configuration, and
    the host's resolver file. *)
Definition host : World :=
  {| fs := {[ "in.qcow2" := File "image";
              "cfg.yaml" := File "config";
              "/etc/resolv.conf" := File "nameserver 192.0.2.53" ]};
     mounts := ∅;
     trace := [] |}.

(** A root file system without resolver file. *)
Definition bare_tree : gmap string node :=
  {[ "mnt/etc" := Dir ]}.

(** A root file system whose resolver file is the usual relative link
    into [/run], which is empty in an image that is not running. *)
Definition linked_tree : gmap string node :=
  {[ "mnt/etc" := Dir;
     "mnt/etc/resolv.conf" := Symlink "mnt/run/systemd/resolve/stub-resolv.conf" ]}.

(** A root file system whose resolver file is a regular file. *)
Definition plain_tree : gmap string node :=
  {[ "mnt/etc" := Dir;
     "mnt/etc/resolv.conf" := File "nameserver 127.0.0.53" ]}.

Definition job : ImageCustomizer :=
  mkImageCustomizer "in.qcow2" "out.qcow2" "mnt" "cfg.yaml" false
    "in.modifying" "out" "" false.

Definition start : St := mkSt job host.

Definition fails_on (bad : cmd) (rc : Z) : cmd → Z :=
  λ c, if bool_decide (argv c = argv bad) then rc else 0.

(** The state once the image is mounted and shows [tree]. *)
Definition mounted_job (j : ImageCustomizer) (tree : gmap string node) : St :=
  mkSt j {| fs := tree ∪ <["mnt" := Dir]> (<["in.modifying" := File "raw:image"]> (fs host));
            mounts := {["mnt"]};
            trace := [] |}.
Definition mounted : gmap string node → St := mounted_job job.

(** The state once the customized image is unmounted again. *)
Definition unmounted : St :=
  mkSt (mkImageCustomizer "in.qcow2" "out.qcow2" "mnt" "cfg.yaml" false
          "in.modifying" "out" "qcow2" false)
       {| fs := <["mnt" := Dir]> (<["in.modifying" := File "raw:image"]> (fs host));
          mounts := ∅;
          trace := [] |}.

(** Every tool succeeds and nothing is refused. *)
Definition calm (tree : gmap string node) : Env := env tree all_succeed None no_fault.

(** [create_manifest("out", generate_sbom=True, sbom_log=None)] on a
    mounted image. *)
Definition manifest_with_sbom : result St unit :=
  create_manifest (calm bare_tree) (PyStr "out") true PyNone false (mounted bare_tree).

(** The chroot engine fails. *)
Definition delegate_fails : Env :=
  env bare_tree all_succeed (Some (Foreign true "apt-get failed")) no_fault.

(** The chroot engine fails, and then the unmount fails as well. *)
Definition delegate_and_umount_fail : Env :=
  env bare_tree (fails_on (SudoUmount "mnt") 32)
    (Some (Foreign true "apt-get failed")) no_fault.

(** A manifest from an earlier run is in the way. *)
Definition start_with_old_manifest : St :=
  mkSt job (set_fs <["out.manifest" := File "old"]> host).

(** The system refuses to remove the working image. *)
Definition working_image_protected : os_op → option exn :=
  λ op, match op with
        | OsRemove "in.modifying" =>
            Some (Foreign true "[Errno 13] Permission denied: 'in.modifying'")
        | _ => None
        end.
(** The state after [create_manifest("out", generate_sbom=True,
    overwrite=True)] has run once on the mounted image. *)
Definition manifest_written : St :=
  state_of (create_manifest (calm bare_tree) (PyStr "out") true PyNone true
              (mounted bare_tree)).

(** The chroot engine fails, and the working image cannot be removed. *)
Definition delegate_fails_image_protected : Env :=
  env bare_tree all_succeed (Some (Foreign true "apt-get failed")) working_image_protected.

(** The states a run from [start] passes through. *)
Definition after_setup (E : Env) : St := state_of (setup E start).
Definition after_delegation (E : Env) : St :=
  state_of (delegate_and_manifest E (after_setup E)).

(** The copy of the host's resolver file into the mounted root fails. *)
Definition shim_copy_fails : Env :=
  env bare_tree (fails_on (SudoCp "/etc/resolv.conf" "mnt/etc/resolv.conf") 1)
    None no_fault.

(** The mount command fails. *)
Definition mount_fails : Env :=
  env bare_tree (fails_on (SudoMount 1048576 "in.modifying" "mnt") 32) None no_fault.

End Scenario.

(* ===================================================================== *)
(** ** The partition locator                                              *)
(* ===================================================================== *)



Definition is_mount (ev : event) : bool :=
  match ev with
  | Run (SudoMount _ _ _) => true
  | _ => false
  end.

(** What a run added to the trace. *)
Definition added (before after : World) (evs : list event) : Prop :=
  trace after = trace before ++ evs.

(* ===================================================================== *)
(** ** Relations between the states before and after a run                *)
(* ===================================================================== *)

(** [m] takes every state to one that [T] relates it to, whether it
    returns or raises. *)
Definition respects {Σ A} (T : Σ → Σ → Prop) (m : M Σ A) : Prop :=
  ∀ σ, T σ (state_of (m σ)).

Definition on_world (T : World → World → Prop) : St → St → Prop :=
  λ σ σ', T (world σ) (world σ').

(** Every event added satisfies [P]. *)
Definition only_events (P : event → bool) (w w' : World) : Prop :=
  ∃ evs, added w w' evs ∧ Forall (λ ev, P ev = true) evs.

(** The fields of the object that are set once, at construction. *)
Definition same_job (σ σ' : St) : Prop :=
  input_image_file (self σ') = input_image_file (self σ) ∧
  output_image_path (self σ') = output_image_path (self σ) ∧
  target_mount_point (self σ') = target_mount_point (self σ) ∧
  chimg_config_file (self σ') = chimg_config_file (self σ) ∧
  overwrite (self σ') = overwrite (self σ) ∧
  modified_image_file (self σ') = modified_image_file (self σ) ∧
  output_files_name (self σ') = output_files_name (self σ).

Definition leaves_mounts (ev : event) : bool :=
  match ev with
  | Run (SudoMount _ _ _) | Run (SudoUmount _) => false
  | _ => true
  end.

(** No mount or unmount command ran, and the mount table is as it was. *)
Definition mounts_untouched (w w' : World) : Prop :=
  mounts w' = mounts w ∧ only_events leaves_mounts w w'.

(** The events that produce an SBOM for the base path [B]: a run of the
    SBOM tool or its installation, and opening the SBOM file or its log. *)
Definition is_sbom_event (B : string) (ev : event) : bool :=
  match ev with
  | Run (CpcSbom _ _ _ _) | Run SnapInstallCpcSbom => true
  | Os (OpenWrite p) =>
      bool_decide (p = sbom_file_name B) || bool_decide (p = B +:+ ".sbom.log")
  | _ => false
  end.

Definition no_sbom (B : string) : World → World → Prop :=
  only_events (λ ev, negb (is_sbom_event B ev)).

Definition is_warning (ev : event) : bool :=
  match ev with
  | Log Warning _ => true
  | _ => false
  end.

(** What the cleanup after a failed delegation may do: log, unmount,
    wait, and remove a file. *)
Definition is_recovery_event (ev : event) : bool :=
  match ev with
  | Log _ _ | Run (SudoUmount _) | Run (Sleep _) | Os (OsRemove _) => true
  | _ => false
  end.


(** The exception a run ended with, if any. *)
Definition raised {Σ A} (r : result Σ A) : option exn :=
  match r with
  | Ok _ _ => None
  | Raise e _ => Some e
  end.

(** *** Two runs side by side *)

(** What the mounted root shows. *)
Definition root_view (mp : string) (w : World) : gmap string node := below mp (fs w).

(** Two worlds that show the same root and hold the same regular file at
    each path of [S]. *)
Definition agree (mp : string) (S : list string) (w1 w2 : World) : Prop :=
  root_view mp w1 = root_view mp w2 ∧
  ∀ p, p ∈ S → ∃ c, fs w1 !! p = Some (File c) ∧ fs w2 !! p = Some (File c).

Definition same_view (mp : string) (S : list string) (σ1 σ2 : St) : Prop :=
  self σ1 = self σ2 ∧ agree mp S (world σ1) (world σ2).

(** From related states, [m] ends the same way on both sides: with the
    same value and related states, or with the same exception. *)
Definition related {Σ A} (R R' : Σ → Σ → Prop) (m : M Σ A) : Prop :=
  ∀ σ1 σ2, R σ1 σ2 →
    match m σ1, m σ2 with
    | Ok a1 σ1', Ok a2 σ2' => a1 = a2 ∧ R' σ1' σ2'
    | Raise e1 _, Raise e2 _ => e1 = e2
    | _, _ => False
    end.

(** The root is left as it was. *)
Definition root_kept (mp : string) (w w' : World) : Prop :=
  root_view mp w' = root_view mp w.

(** An environment whose tools answer from the mounted root alone, and in
    which the system refuses no file operation. *)
Record reads_root_only (E : Env) (mp : string) : Prop := {
  local_status : ∀ c w1 w2,
    root_view mp w1 = root_view mp w2 → exit_status E c w1 = exit_status E c w2;
  local_stdout : ∀ c w1 w2,
    root_view mp w1 = root_view mp w2 → stdout_of E c w1 = stdout_of E c w2;
  local_stderr : ∀ c w1 w2,
    root_view mp w1 = root_view mp w2 → stderr_of E c w1 = stderr_of E c w2;
  local_which : ∀ name w1 w2,
    root_view mp w1 = root_view mp w2 → which E name w1 = which E name w2;
  local_snaps : ∀ chroot out w1 w2,
    root_view mp w1 = root_view mp w2 →
    snap_seed_parse_main E chroot out w1 = snap_seed_parse_main E chroot out w2;
  nothing_refused : ∀ op w, os_fault E op w = None;
}.

(** The files a command or a library operation writes or removes lie
    outside the mount point. *)
Definition cmd_writes_outside (mp : string) (c : cmd) : Prop :=
  match c with
  | DpkgQueryShow _ out | FindXdev _ out => under mp out = false
  | SortInPlace f => under mp f = false
  | CpcSbom _ _ out err => under mp out = false ∧ under mp err = false
  | SnapInstallCpcSbom | FileType _ | FdiskList _ | SudoLsLong _ | Sleep _ => True
  | QemuImgConvert _ _ _ dst | SudoCpArchive _ dst | SudoCp _ dst => under mp dst = false
  | SudoRmForce p => under mp p = false
  | SudoMv src dst => under mp src = false ∧ under mp dst = false
  | SudoMount _ _ _ | SudoUmount _ => False
  end.

Definition os_writes_outside (mp : string) (op : os_op) : Prop :=
  match op with
  | OsRemove p | OsMakedirs p | ShutilCopy _ p | OpenWrite p => under mp p = false
  | OpenRead _ => True
  end.

(** The object is left as it was. *)
Definition keeps_self (σ σ' : St) : Prop := self σ' = self σ.


(** What [create_manifest] does after its collision checks. *)
Definition generate (E : Env) (chroot_root base_output_path sbom_log : string)
    (generate_sbom : bool) : M St unit :=
  let manifest := manifest_file base_output_path in
  let filelist := filelist_file base_output_path in
  liftW (log Info "Adding packages to manifest...") ;;
  liftW (open_write E manifest) ;;
  liftW (subprocess_run_check E (DpkgQueryShow chroot_root manifest)) ;;
  liftW (log Info "Adding snaps to manifest...") ;;
  liftW (log Debug "Calling snap_seed_parse module") ;;
  liftW (snap_seed_parse E chroot_root manifest) ;;
  liftW (log Debug "Finished calling snap_seed_parse module") ;;
  liftW (log Info ("Manifest generated: " +:+ manifest)) ;;
  liftW (log Info "Generating filelist...") ;;
  liftW (open_write E filelist) ;;
  liftW (subprocess_run_check E (FindXdev chroot_root filelist)) ;;
  liftW (subprocess_run_check E (SortInPlace filelist)) ;;
  liftW (log Info ("Filelist generated: " +:+ filelist)) ;;
  when generate_sbom (generate_sbom_step E chroot_root base_output_path sbom_log) ;;
  liftW (log Info "Done creating manifest and filelist!").

(** The steps of [setup] that come before the partition locator. *)
Definition staging (E : Env) : M St unit :=
  liftW (log Info "Setting up image customizer...") ;;
  _ensure_paths E ;;
  _remove_existing_modified_image E ;;
  _validate_input_image_exists ;;
  _convert_or_copy_image E.

(** The states [setup] passes through from [Scenario.start]. *)
Module Stages.
Definition staged (E : Env) : St := state_of (staging E Scenario.start).
Definition located (E : Env) : St := state_of (_get_partition_offset E (staged E)).
Definition loop_mounted (E : Env) : St := state_of (_mount_image E 1048576 (located E)).
End Stages.

(** An entry that is absent stays absent. *)
Definition stays_absent (p : string) (w w' : World) : Prop :=
  fs w !! p = None → fs w' !! p = None.


(** Runs that meet what an earlier run left behind. *)
Module Reruns.
(** A job whose input image already carries the suffix of the working
    image. *)
Definition self_named_host : World :=
  {| fs := {[ "disk.modifying" := File "image"; "cfg.yaml" := File "config" ]};
     mounts := ∅;
     trace := [] |}.
Definition self_named : St :=
  mkSt (mkImageCustomizer "disk.modifying" "out.img" "mnt" "cfg.yaml" false
          "disk.modifying" "out" "" false)
       self_named_host.
(** A mounted image beside which an earlier run left its SBOM. *)
Definition with_old_sbom : St :=
  mkSt (self (Scenario.mounted Scenario.bare_tree))
       (set_fs <["out.sbom.spdx" := File "SPDXRef-DOCUMENT"]>
          (world (Scenario.mounted Scenario.bare_tree))).
End Reruns.

(* ===================================================================== *)
(** * Properties                                                          *)
(* ===================================================================== *)

(** ** Text lemmas *)











(** ** The partition locator, as a function of the inspection output *)




(** ** Reasoning about runs *)

Section Respect.
Context {Σ : Type} (T : Σ → Σ → Prop) `{!PreOrder T}.

Lemma respects_ret {A} (a : A) : respects T (ret a).
Proof. intros σ. simpl. reflexivity. Qed.

Lemma respects_raise {A} e : respects T (raise (A := A) e).
Proof. intros σ. simpl. reflexivity. Qed.

Lemma respects_ask {A} (f : Σ → A) : respects T (ask f).
Proof. intros σ. simpl. reflexivity. Qed.

Lemma respects_lift_exn {A} (r : exn + A) : respects T (lift_exn r).
Proof. destruct r; [apply respects_raise | apply respects_ret]. Qed.

Lemma respects_bind {A B} (m : M Σ A) (k : A → M Σ B) :
  respects T m → (∀ a, respects T (k a)) → respects T (bind m k).
Proof.
  intros Hm Hk σ. unfold bind. specialize (Hm σ).
  destruct (m σ) as [a σ'|e σ']; simpl in *; [|done].
  etrans; [exact Hm | apply Hk].
Qed.

Lemma respects_try {A} catches (body : M Σ A) handler :
  respects T body → (∀ e, respects T (handler e)) →
  respects T (try_except catches body handler).
Proof.
  intros Hb Hh σ. unfold try_except. specialize (Hb σ).
  destruct (body σ) as [a σ'|e σ']; simpl in *; [done|].
  destruct (catches e); simpl; [|done].
  etrans; [exact Hb | apply Hh].
Qed.

Lemma respects_when c (body : M Σ unit) : respects T body → respects T (when c body).
Proof. intros H. destruct c; [exact H | apply respects_ret]. Qed.

Lemma respects_for_each {A} (xs : list A) (body : A → M Σ unit) :
  (∀ x, x ∈ xs → respects T (body x)) → respects T (for_each xs body).
Proof.
  induction xs as [|x xs IH]; intros H; simpl.
  - apply respects_ret.
  - apply respects_bind; [apply H; left | intros _; apply IH].
    intros y Hy. apply H. by right.
Qed.
End Respect.

Global Instance on_world_preorder T `{!PreOrder T} : PreOrder (on_world T).
Proof.
  split.
  - intros σ. unfold on_world. reflexivity.
  - intros σ1 σ2 σ3. unfold on_world. apply transitivity.
Qed.

Global Instance only_events_preorder P : PreOrder (only_events P).
Proof.
  split.
  - intros w. exists []. split; [unfold added; by rewrite app_nil_r | constructor].
  - intros w1 w2 w3 (e1 & H1 & F1) (e2 & H2 & F2). exists (e1 ++ e2). split.
    + unfold added in *. by rewrite H2, H1, app_assoc.
    + by apply Forall_app.
Qed.

Global Instance mounts_untouched_preorder : PreOrder mounts_untouched.
Proof.
  split.
  - intros w. split; [done | reflexivity].
  - intros w1 w2 w3 [M1 H1] [M2 H2]. split; [congruence | by etrans].
Qed.

Global Instance same_job_preorder : PreOrder same_job.
Proof.
  split.
  - intros σ. unfold same_job. tauto.
  - intros σ1 σ2 σ3. unfold same_job. intros H1 H2.
    destruct H1 as (?&?&?&?&?&?&?), H2 as (?&?&?&?&?&?&?).
    repeat split; congruence.
Qed.

Section RespectWorld.
Context (E : Env) (T : World → World → Prop) `{!PreOrder T}.

Lemma respects_liftW {A} (m : M World A) : respects T m → respects (on_world T) (liftW m).
Proof.
  intros H σ. unfold on_world, liftW. specialize (H (world σ)).
  by destruct (m (world σ)).
Qed.

Lemma respects_get_self : respects (on_world T) get_self.
Proof. apply respects_ask. apply _. Qed.

Lemma respects_set_type t : respects (on_world T) (set_input_image_type t).
Proof. intros σ. unfold on_world. simpl. reflexivity. Qed.

Lemma respects_set_existed b : respects (on_world T) (set_resolv_conf_existed b).
Proof. intros σ. unfold on_world. simpl. reflexivity. Qed.

Lemma respects_log lvl msg :
  (∀ w, T w (record (Log lvl msg) w)) → respects T (log lvl msg).
Proof. intros H w. apply H. Qed.

Lemma respects_os_call op :
  (∀ w, T w (record (Os op) w)) →
  (∀ w w', os_effect op w = inr w' → T w (record (Os op) w')) →
  respects T (os_call E op).
Proof.
  intros H1 H2 w. unfold os_call.
  destruct (os_fault E op w); simpl; [apply H1|].
  destruct (os_effect op w) eqn:Heff; simpl; [apply H1 | by apply H2].
Qed.

Lemma respects_run c :
  (∀ w rc, T w (record (Run c) (cmd_effect E c rc w))) → respects T (subprocess_run E c).
Proof. intros H w. apply H. Qed.

Lemma respects_run_check c :
  (∀ w rc, T w (record (Run c) (cmd_effect E c rc w))) →
  respects T (subprocess_run_check E c).
Proof.
  intros H. apply respects_bind; [done | by apply respects_run |].
  intros p. destruct (bool_decide _); [by apply respects_ret | by apply respects_raise].
Qed.

Lemma respects_check_output c :
  (∀ w rc, T w (record (Run c) (cmd_effect E c rc w))) →
  respects T (subprocess_check_output E c).
Proof.
  intros H. apply respects_bind; [done | by apply respects_run |].
  intros p. destruct (bool_decide _); [by apply respects_ret | by apply respects_raise].
Qed.

Lemma respects_open_read p :
  (∀ w, T w (record (Os (OpenRead p)) w)) → respects T (open_read E p).
Proof.
  intros H. apply respects_bind; [done | | intros; by apply respects_ask].
  apply respects_os_call; [done|]. simpl. intros w w'.
  destruct (read_text _ _); intros [= <-]. apply H.
Qed.

Lemma respects_chroot_apply config rootfs :
  (∀ w m, T w (record (ChimgApply config rootfs) (set_fs (λ _, m) w))) →
  respects T (chroot_apply E config rootfs).
Proof. intros H w. unfold chroot_apply. destruct (_.2); apply H. Qed.

Lemma respects_snap_seed_parse chroot out :
  (∀ w, T w (record (SnapSeedParse chroot out) w)) →
  (∀ w c, T w (record (SnapSeedParse chroot out) (set_fs <[out := File c]> w))) →
  respects T (snap_seed_parse E chroot out).
Proof.
  intros H1 H2 w. unfold snap_seed_parse.
  destruct (snap_seed_parse_main E chroot out w); simpl; [apply H2 | apply H1].
Qed.
End RespectWorld.

(** ** What one step does to the trace and the mount table *)

Lemma trace_cmd_effect E c rc w : trace (cmd_effect E c rc w) = trace w.
Proof. destruct c; simpl; repeat case_match; reflexivity. Qed.

Lemma mounts_cmd_effect E c rc w :
  leaves_mounts (Run c) = true → mounts (cmd_effect E c rc w) = mounts w.
Proof. destruct c; simpl; intros ?; repeat case_match; done. Qed.

Lemma trace_os_effect op w w' : os_effect op w = inr w' → trace w' = trace w.
Proof. destruct op; simpl; repeat case_match; intros [= <-]; reflexivity. Qed.

Lemma mounts_os_effect op w w' : os_effect op w = inr w' → mounts w' = mounts w.
Proof. destruct op; simpl; repeat case_match; intros [= <-]; reflexivity. Qed.

Lemma only_events_step P ev w w' :
  trace w' = trace w → P ev = true → only_events P w (record ev w').
Proof.
  intros Ht HP. exists [ev]. split; [|by repeat constructor].
  unfold added. simpl. by rewrite Ht.
Qed.

Lemma mounts_untouched_step ev w w' :
  trace w' = trace w → mounts w' = mounts w → leaves_mounts ev = true →
  mounts_untouched w (record ev w').
Proof. intros Ht Hm HP. split; [done | by apply only_events_step]. Qed.

Ltac solve_preorder :=
  lazymatch goal with
  | |- PreOrder _ => typeclasses eauto
  | _ => idtac
  end.

(** The combinators, common to every relation. *)
Ltac respect_structure :=
  first
    [ apply respects_ret; solve_preorder
    | apply respects_raise; solve_preorder
    | apply respects_ask; solve_preorder
    | apply respects_lift_exn; solve_preorder
    | apply respects_get_self; solve_preorder
    | apply respects_set_type; solve_preorder
    | apply respects_set_existed; solve_preorder
    | apply respects_bind; solve_preorder; [ | intros ? ]
    | apply respects_try; solve_preorder; [ | intros ? ]
    | apply respects_when; solve_preorder
    | apply respects_liftW
    | match goal with
      | |- respects _ (if ?b then _ else _) => destruct b
      | |- respects _ (let _ := _ in _) => cbv zeta
      end ].

(** The operations, given a tactic [step] that proves the relation across
    one recorded event. *)
Ltac respect_operation step :=
  first
    [ apply respects_log; solve_preorder; intros; step
    | apply respects_run_check; solve_preorder; intros; step
    | apply respects_check_output; solve_preorder; intros; step
    | apply respects_run; solve_preorder; intros; step
    | apply respects_open_read; solve_preorder; intros; step
    | apply respects_os_call; solve_preorder; intros; step
    | apply respects_chroot_apply; solve_preorder; intros; step
    | apply respects_snap_seed_parse; solve_preorder; intros; step ].

Ltac respect step := repeat (first [ respect_structure | respect_operation step ]).

Ltac trace_same :=
  first
    [ reflexivity
    | apply trace_cmd_effect
    | match goal with H : os_effect _ _ = inr _ |- _ => exact (trace_os_effect _ _ _ H) end ].

Ltac mounts_same :=
  first
    [ reflexivity
    | apply mounts_cmd_effect; reflexivity
    | match goal with H : os_effect _ _ = inr _ |- _ => exact (mounts_os_effect _ _ _ H) end ].

Ltac events_step := apply only_events_step; [trace_same | reflexivity].
Ltac mounts_step := apply mounts_untouched_step; [trace_same | mounts_same | reflexivity].

(** ** The staging steps leave the mount table alone *)



(** [setup] is its staging steps followed by the locator, the mount and
    the shim. *)
Lemma setup_staged E σ :
  setup E σ =
  (staging E ;;
   offset ← _get_partition_offset E;
   _mount_image E offset ;;
   _handle_resolv_conf E ;;
   liftW (log Info "Image customizer setup complete!")) σ.
Proof.
  unfold setup, staging, bind.
  repeat (match goal with
          | |- context [match ?m ?s with Ok _ _ => _ | Raise _ _ => _ end] =>
              destruct (m s)
          end; try reflexivity).
Qed.

(** ** The partition locator inside [setup] *)




(** ** Running single operations *)

Lemma bind_ok {Σ A B} (m : M Σ A) (k : A → M Σ B) σ a σ' :
  m σ = Ok a σ' → bind m k σ = k a σ'.
Proof. intros H. unfold bind. by rewrite H. Qed.

Lemma bind_raise {Σ A B} (m : M Σ A) (k : A → M Σ B) σ e σ' :
  m σ = Raise e σ' → bind m k σ = Raise e σ'.
Proof. intros H. unfold bind. by rewrite H. Qed.

Lemma run_check_ok E c w :
  exit_status E c w = 0 →
  subprocess_run_check E c w = Ok () (record (Run c) (cmd_effect E c 0 w)).
Proof.
  intros H. unfold subprocess_run_check, bind, subprocess_run. simpl.
  rewrite H. reflexivity.
Qed.

Lemma run_check_failed E c w :
  exit_status E c w ≠ 0 →
  subprocess_run_check E c w =
  Raise (CalledProcessError (argv c) (exit_status E c w))
        (record (Run c) (cmd_effect E c (exit_status E c w) w)).
Proof.
  intros H. unfold subprocess_run_check, bind, subprocess_run. simpl.
  rewrite bool_decide_eq_false_2 by done. reflexivity.
Qed.

Lemma liftW_ok {A} (m : M World A) σ a w :
  m (world σ) = Ok a w → liftW m σ = Ok a (mkSt (self σ) w).
Proof. intros H. unfold liftW. by rewrite H. Qed.

Lemma liftW_raise {A} (m : M World A) σ e w :
  m (world σ) = Raise e w → liftW m σ = Raise e (mkSt (self σ) w).
Proof. intros H. unfold liftW. by rewrite H. Qed.

(** ** Construction *)

(** C5. For a job whose two image paths name a file: when the output path
    exists and [overwrite] is off, construction raises [FileExistsError]
    and leaves the world as it was; when the output path does not exist or
    [overwrite] is on, construction returns the object, again without
    touching the world. *)
Theorem construction_output_collision
    (inp out mp cfg : string) (ov : bool) (w : World) :
  nonempty (path_name inp) = true →
  nonempty (path_name out) = true →
  (os_path_exists w out = true → ov = false →
     __init__ inp out mp cfg ov w =
     Raise (FileExistsError ("Error: Output image file '" +:+ out +:+
                             "' already exists! Use overwrite=True to overwrite.")) w)
  ∧ (os_path_exists w out = false ∨ ov = true →
     ∃ obj, __init__ inp out mp cfg ov w = Ok obj w ∧
            input_image_file obj = inp ∧ output_image_path obj = out ∧
            target_mount_point obj = mp ∧ chimg_config_file obj = cfg ∧
            overwrite obj = ov).
Proof.
  intros Hin Hout. unfold __init__, with_suffix, bind, lift_exn, ask.
  rewrite Hin, Hout. simpl. split.
  - intros -> ->. reflexivity.
  - intros [->| ->].
    + simpl. eexists. by repeat split.
    + rewrite andb_false_r. eexists. by repeat split.
Qed.

Lemma construction_output_collision_witness :
  ∃ obj, __init__ "in.qcow2" "out.qcow2" "mnt" "cfg.yaml" false Scenario.host
         = Ok obj Scenario.host ∧ modified_image_file obj = "in.modifying".
Proof.
  destruct (construction_output_collision "in.qcow2" "out.qcow2" "mnt" "cfg.yaml" false
              Scenario.host eq_refl eq_refl) as [_ H].
  destruct (H (or_introl eq_refl)) as (obj & Hobj & _).
  exists obj. split; [exact Hobj|].
  vm_compute in Hobj. injection Hobj as <-. reflexivity.
Defined.

(** A path without final component cannot be a job's image path:
    [with_suffix] refuses it before the collision check is reached. *)
Lemma construction_needs_a_file_name out mp cfg ov w :
  ∃ msg, __init__ "." out mp cfg ov w = Raise (ValueError msg) w.
Proof. eexists. reflexivity. Qed.

(** ** Artifact names *)

Lemma derived_artifact_names B :
  manifest_file B = B +:+ ".manifest" ∧
  filelist_file B = B +:+ ".filelist" ∧
  sbom_document_name B = B +:+ ".sbom" ∧
  sbom_file_name B = B +:+ ".sbom.spdx".
Proof. by repeat split. Qed.

(** The fallback to [B.sbom.log] applies to an empty path only. *)
Lemma sbom_log_fallback B : sbom_log_path B (PyStr "") = B +:+ ".sbom.log".
Proof. reflexivity. Qed.

Lemma string_length_app (s t : string) :
  String.length (s +:+ t) = (String.length s + String.length t)%nat.
Proof. induction s as [|a s IH]; simpl; [done | by rewrite IH]. Qed.

(** Settle a decidable closed statement by evaluation. *)
Ltac by_evaluation :=
  match goal with
  | |- ?P => apply (bool_decide_unpack P); vm_compute; exact I
  end.

(** Settle a conjunction of closed equations by evaluation. *)
Ltac evaluate_all :=
  repeat match goal with |- _ ∧ _ => split end; vm_compute; reflexivity.

(** C8. With [sbom_log=None] the log path is the text [None], for every
    base path, and never [B.sbom.log]: a run that generates the SBOM opens
    a file called [None] for the log. *)
Theorem sbom_log_none_is_the_text_None :
  (∀ B, sbom_log_path B PyNone = "None" ∧ sbom_log_path B PyNone ≠ B +:+ ".sbom.log")
  ∧ (Os (OpenWrite "None") ∈ trace (world (state_of Scenario.manifest_with_sbom)))
  ∧ (Run (CpcSbom "mnt" "out.sbom" "out.sbom.spdx" "None")
       ∈ trace (world (state_of Scenario.manifest_with_sbom)))
  ∧ (Os (OpenWrite "out.sbom.log") ∉ trace (world (state_of Scenario.manifest_with_sbom)))
  ∧ fs (world (state_of Scenario.manifest_with_sbom)) !! "out.sbom.log" = None
  ∧ fs (world (state_of Scenario.manifest_with_sbom)) !! "None" = Some (File "").
Proof.
  split.
  - intros B. split; [reflexivity|]. change (sbom_log_path B PyNone) with "None".
    intros H. apply (f_equal String.length) in H. rewrite string_length_app in H.
    simpl in H. lia.
  - split; [by_evaluation|]. split; [by_evaluation|]. split; [by_evaluation|].
    split; vm_compute; reflexivity.
Qed.

(** ** The DNS shim *)

Lemma backup_is_not_resolv mp : backup_path mp ≠ resolv_path mp.
Proof.
  unfold backup_path. intros H. apply (f_equal String.length) in H.
  rewrite string_length_app in H. simpl in H. lia.
Qed.

Lemma exists_lexists w p : os_path_exists w p = true → is_Some (fs w !! p).
Proof.
  unfold os_path_exists, stat. intros H%bool_decide_eq_true. simpl in H.
  destruct (fs w !! p) as [n|]; [eauto|]. by destruct H.
Qed.

(** What [_restore_resolv_conf] does when the flag is set and
    [os.path.exists] sees the backup: the backup takes the place of the
    injected file, and nothing else changes. *)
Lemma restore_moves_backup E σ :
  let mp := target_mount_point (self σ) in
  resolv_conf_existed (self σ) = true →
  os_path_exists (world σ) (backup_path mp) = true →
  (∀ c w, exit_status E c w = 0) →
  ∃ σ', _restore_resolv_conf E σ = Ok () σ' ∧
        fs (world σ') !! resolv_path mp = fs (world σ) !! backup_path mp ∧
        fs (world σ') !! backup_path mp = None ∧
        ∀ p, p ≠ resolv_path mp → p ≠ backup_path mp →
             fs (world σ') !! p = fs (world σ) !! p.
Proof.
  intros mp Hex Hbak Hrc. pose proof (backup_is_not_resolv mp) as Hne.
  destruct (exists_lexists _ _ Hbak) as [n Hn].
  unfold _restore_resolv_conf, bind, get_self, ask, liftW, log. simpl.
  fold mp. rewrite Hex, Hbak. simpl.
  rewrite !run_check_ok by apply Hrc. simpl.
  rewrite lookup_delete_ne, Hn by done. simpl.
  eexists. split; [reflexivity|]. simpl. split; [|split].
  - by rewrite lookup_insert_eq.
  - by rewrite lookup_insert_ne, lookup_delete_eq.
  - intros p H1 H2. by rewrite lookup_insert_ne, !lookup_delete_ne.
Qed.

(** Otherwise it deletes the injected file and nothing else. *)
Lemma restore_deletes_injected E σ :
  let mp := target_mount_point (self σ) in
  resolv_conf_existed (self σ) = false ∨ os_path_exists (world σ) (backup_path mp) = false →
  (∀ c w, exit_status E c w = 0) →
  ∃ σ', _restore_resolv_conf E σ = Ok () σ' ∧
        fs (world σ') = delete (resolv_path mp) (fs (world σ)).
Proof.
  intros mp Hcase Hrc.
  unfold _restore_resolv_conf, bind, get_self, ask, liftW, log. simpl. fold mp.
  assert (resolv_conf_existed (self σ) && os_path_exists (world σ) (backup_path mp) = false)
    as -> by (destruct Hcase as [-> | ->]; [done | apply andb_false_r]).
  simpl. rewrite run_check_ok by apply Hrc. simpl.
  eexists. split; reflexivity.
Qed.

(** C6. A root file system whose [etc/resolv.conf] is the usual link into
    the empty [/run]: install backs the link up and sets the flag, yet
    restore finds no backup through [os.path.exists], deletes the injected
    file only, and leaves the backup beside the missing original. *)
Theorem dangling_backup_is_not_restored :
  ∃ σ1 σ2,
    fs (world (Scenario.mounted Scenario.linked_tree)) !! "mnt/etc/resolv.conf"
      = Some (Symlink "mnt/run/systemd/resolve/stub-resolv.conf") ∧
    _handle_resolv_conf (Scenario.calm Scenario.linked_tree)
      (Scenario.mounted Scenario.linked_tree) = Ok () σ1 ∧
    resolv_conf_existed (self σ1) = true ∧
    fs (world σ1) !! "mnt/etc/resolv.conf" = Some (File "nameserver 192.0.2.53") ∧
    fs (world σ1) !! "mnt/etc/resolv.conf.bak"
      = Some (Symlink "mnt/run/systemd/resolve/stub-resolv.conf") ∧
    os_path_lexists (world σ1) "mnt/etc/resolv.conf.bak" = true ∧
    os_path_exists (world σ1) "mnt/etc/resolv.conf.bak" = false ∧
    _restore_resolv_conf (Scenario.calm Scenario.linked_tree) σ1 = Ok () σ2 ∧
    fs (world σ2) !! "mnt/etc/resolv.conf" = None ∧
    fs (world σ2) !! "mnt/etc/resolv.conf.bak"
      = Some (Symlink "mnt/run/systemd/resolve/stub-resolv.conf").
Proof.
  exists (state_of (_handle_resolv_conf (Scenario.calm Scenario.linked_tree)
                      (Scenario.mounted Scenario.linked_tree))).
  exists (state_of ((_handle_resolv_conf (Scenario.calm Scenario.linked_tree) ;;
                     _restore_resolv_conf (Scenario.calm Scenario.linked_tree))
                      (Scenario.mounted Scenario.linked_tree))).
  evaluate_all.
Qed.

(** With a regular file the same run restores the original. *)
Lemma regular_backup_is_restored :
  let r := (_handle_resolv_conf (Scenario.calm Scenario.plain_tree) ;;
            _restore_resolv_conf (Scenario.calm Scenario.plain_tree))
             (Scenario.mounted Scenario.plain_tree) in
  fs (world (state_of r)) !! "mnt/etc/resolv.conf" = Some (File "nameserver 127.0.0.53") ∧
  fs (world (state_of r)) !! "mnt/etc/resolv.conf.bak" = None.
Proof. split; vm_compute; reflexivity. Qed.

(** ** Finalization *)

Lemma stat_delete (m : gmap string node) p : stat (delete p m) p = None.
Proof. unfold stat. simpl. by rewrite lookup_delete_eq. Qed.

(** After [os.remove] has returned, the path is gone. *)
Lemma os_remove_removes E p w w' :
  os_remove E p w = Ok () w' → os_path_exists w' p = false.
Proof.
  unfold os_remove, os_call. destruct (os_fault E _ w); [done|]. simpl.
  destruct (fs w !! p); [|done]. intros [= <-].
  unfold os_path_exists. simpl. by rewrite stat_delete.
Qed.

(** [_produce_final_image] returns only when the working image is really
    gone, and then without any warning: the branch that logs the failed
    removal is never taken, because a refused [os.remove] raises. *)
Lemma finalization_returns_only_after_removal E σ σ' :
  _produce_final_image E σ = Ok () σ' →
  os_path_exists (world σ') (modified_image_file (self σ)) = false ∧
  only_events (λ ev, negb (is_warning ev)) (world σ) (world σ').
Proof.
  unfold _produce_final_image. unfold bind at 1. simpl.
  set (s := self σ). unfold bind at 1. simpl.
  intros H.
  (* the removal of a previous output and the conversion *)
  unfold bind at 1 in H.
  match type of H with
  | match ?m ?st with _ => _ end = _ => destruct (m st) as [[] σ1|] eqn:H1; [|done]
  end.
  unfold bind at 1 in H.
  match type of H with
  | match ?m ?st with _ => _ end = _ => destruct (m st) as [[] σ2|] eqn:H2; [|done]
  end.
  unfold bind at 1 in H.
  destruct (liftW (os_remove E (modified_image_file s)) σ2) as [[] σ3|] eqn:H3; [|done].
  assert (os_path_exists (world σ3) (modified_image_file s) = false) as Hgone.
  { unfold liftW in H3. destruct (os_remove E _ (world σ2)) as [[] w3|] eqn:Hrm; [|done].
    injection H3 as <-. simpl. by eapply os_remove_removes. }
  unfold bind at 1 in H. simpl in H. rewrite Hgone in H.
  unfold bind, liftW, log in H. simpl in H. injection H as <-. simpl.
  split; [exact Hgone|].
  assert (only_events (λ ev, negb (is_warning ev)) (world σ) (world σ1)) as T1.
  { assert (respects (on_world (only_events (λ ev, negb (is_warning ev))))
              (when (os_path_exists (world σ) (output_image_path s))
                 (liftW (os_remove E (output_image_path s)) ;;
                  liftW (log Info "Removed existing output image file")))) as R
      by (unfold os_remove; respect events_step).
    specialize (R σ). by rewrite H1 in R. }
  assert (only_events (λ ev, negb (is_warning ev)) (world σ1) (world σ2)) as T2.
  { match type of H2 with
    | ?m σ1 = _ =>
        assert (respects (on_world (only_events (λ ev, negb (is_warning ev)))) m) as R
          by (unfold shutil_copy; respect events_step)
    end.
    specialize (R σ1). by rewrite H2 in R. }
  assert (only_events (λ ev, negb (is_warning ev)) (world σ2) (world σ3)) as T3.
  { assert (respects (on_world (only_events (λ ev, negb (is_warning ev))))
              (liftW (os_remove E (modified_image_file s)))) as R
      by (unfold os_remove; respect events_step).
    specialize (R σ2). by rewrite H3 in R. }
  etrans; [exact T1|]. etrans; [exact T2|]. etrans; [exact T3|].
  exists [Log Info "Removed temporary interim modified image file successfully.";
          Log Info ("New image is available at: " +:+ output_image_path s)].
  split; [|by repeat constructor].
  unfold added. simpl. by rewrite <- app_assoc.
Qed.

(** On the way there it removes a previous output first, then converts
    or copies, then removes the working image. *)
Lemma finalization_order :
  trace (world (state_of
    (_produce_final_image (Scenario.calm Scenario.bare_tree)
       (mkSt (self Scenario.unmounted)
             (set_fs <["out.qcow2" := File "stale"]> (world Scenario.unmounted))))))
  = [Os (OsRemove "out.qcow2");
     Log Info "Removed existing output image file";
     Log Info "Converting raw image back to qcow2 at: out.qcow2";
     Run (QemuImgConvert "raw" "qcow2" "in.modifying" "out.qcow2");
     Os (OsRemove "in.modifying");
     Log Info "Removed temporary interim modified image file successfully.";
     Log Info "New image is available at: out.qcow2"].
Proof. vm_compute. reflexivity. Qed.

(** C7. A working image that the system refuses to remove: the output
    image is written, then finalization ends with the error of
    [os.remove]; nothing is logged as a warning and the closing records
    are never written. *)
Theorem unremovable_working_image_aborts_finalization :
  ∃ σ',
    _produce_final_image
      (Scenario.env Scenario.bare_tree Scenario.all_succeed None
         Scenario.working_image_protected)
      Scenario.unmounted
    = Raise (Foreign true "[Errno 13] Permission denied: 'in.modifying'") σ' ∧
    fs (world σ') !! "out.qcow2" = Some (File "qcow2:raw:image") ∧
    fs (world σ') !! "in.modifying" = Some (File "raw:image") ∧
    trace (world σ') =
      [Log Info "Converting raw image back to qcow2 at: out.qcow2";
       Run (QemuImgConvert "raw" "qcow2" "in.modifying" "out.qcow2");
       Os (OsRemove "in.modifying")].
Proof.
  exists (state_of (_produce_final_image
                      (Scenario.env Scenario.bare_tree Scenario.all_succeed None
                         Scenario.working_image_protected)
                      Scenario.unmounted)).
  evaluate_all.
Qed.

(** ** The failure path of [main] *)

Lemma main_after_setup E σ σ1 :
  setup E σ = Ok () σ1 →
  main E σ =
  (try_except is_Exception (delegate_and_manifest E) (cleanup_on_failure E) ;;
   create_final_image E) σ1.
Proof. intros H. unfold main. by rewrite (bind_ok _ _ _ _ _ H). Qed.

Lemma main_delegation_raised E σ σ1 e σ2 :
  setup E σ = Ok () σ1 →
  delegate_and_manifest E σ1 = Raise e σ2 →
  main E σ = if is_Exception e then cleanup_on_failure E e σ2 else Raise e σ2.
Proof.
  intros H1 H2. rewrite (main_after_setup _ _ _ H1).
  unfold bind, try_except. rewrite H2.
  destruct (is_Exception e); [|reflexivity].
  unfold cleanup_on_failure, bind, raise.
  destruct (_unmount_image E σ2) as [[] σu|]; [|reflexivity].
  by destruct (_remove_existing_modified_image E σu).
Qed.


Lemma unmount_ok E σ :
  let mp := target_mount_point (self σ) in
  exit_status E (SudoUmount mp) (record (Log Info "Unmounting image...") (world σ)) = 0 →
  _unmount_image E σ =
  Ok () (mkSt (self σ)
           (record (Run (Sleep "1"))
              (record (Run (SudoUmount mp))
                 (cmd_effect E (SudoUmount mp) 0
                    (record (Log Info "Unmounting image...") (world σ)))))).
Proof.
  intros mp H. unfold _unmount_image, bind, get_self, ask, liftW, log. simpl.
  fold mp. by rewrite (run_check_ok _ _ _ H).
Qed.

Lemma unmount_failed E σ :
  let mp := target_mount_point (self σ) in
  let w := record (Log Info "Unmounting image...") (world σ) in
  exit_status E (SudoUmount mp) w ≠ 0 →
  _unmount_image E σ =
  Raise (CalledProcessError ["sudo"; "umount"; mp] (exit_status E (SudoUmount mp) w))
        (mkSt (self σ) (record (Run (SudoUmount mp)) w)).
Proof.
  intros mp w H. unfold _unmount_image, bind, get_self, ask, liftW, log. simpl.
  fold mp w. rewrite (run_check_failed _ _ _ H). simpl.
  by rewrite bool_decide_eq_false_2.
Qed.

(** Removing the stale working image, when nothing is refused. *)
Lemma remove_working_image E σ :
  let p := modified_image_file (self σ) in
  (∀ w, os_fault E (OsRemove p) w = None) →
  ∃ σ', _remove_existing_modified_image E σ = Ok () σ' ∧
        self σ' = self σ ∧
        mounts (world σ') = mounts (world σ) ∧
        os_path_exists (world σ') p = false ∧
        (∀ q n, fs (world σ') !! q = Some n → fs (world σ) !! q = Some n) ∧
        only_events is_recovery_event (world σ) (world σ').
Proof.
  intros p Hf.
  unfold _remove_existing_modified_image, bind, get_self, ask. simpl. fold p.
  destruct (os_path_exists (world σ) p) eqn:Hex; simpl.
  - destruct (exists_lexists _ _ Hex) as [n Hn].
    unfold liftW, os_remove, os_call, log. rewrite Hf. simpl. rewrite Hn. simpl.
    eexists. split; [reflexivity|]. simpl. repeat split.
    + unfold os_path_exists. simpl. by rewrite stat_delete.
    + intros q m Hq. by apply lookup_delete_Some in Hq as [_ Hq].
    + exists [Os (OsRemove p); Log Info "Removed existing modified image file"].
      split; [|by repeat constructor]. unfold added. simpl. by rewrite <- app_assoc.
  - eexists. split; [reflexivity|]. repeat split; [done.. | reflexivity].
Qed.

Lemma outside_lookup_Some d (m : gmap string node) q n :
  outside d m !! q = Some n → m !! q = Some n.
Proof. unfold outside. intros H. by apply map_lookup_filter_Some in H as [H _]. Qed.

(** The cleanup when the unmount succeeds and the removal is permitted. *)
Lemma cleanup_completes E e σ :
  let mp := target_mount_point (self σ) in
  let p := modified_image_file (self σ) in
  (∀ w, exit_status E (SudoUmount mp) w = 0) →
  (∀ w, os_fault E (OsRemove p) w = None) →
  ∃ σ', cleanup_on_failure E e σ =
          Raise (RuntimeError ("Chimg logic failed: " +:+ exn_str e) (Some e)) σ' ∧
        (mp ∉ mounts (world σ')) ∧
        os_path_exists (world σ') p = false ∧
        (∀ q n, fs (world σ') !! q = Some n → fs (world σ) !! q = Some n) ∧
        only_events is_recovery_event (world σ) (world σ').
Proof.
  intros mp p Hrc Hf. unfold cleanup_on_failure.
  rewrite (bind_ok _ _ _ _ _ (unmount_ok E σ (Hrc _))). fold mp.
  set (σu := mkSt _ _).
  destruct (remove_working_image E σu Hf) as (σ' & Hrm & Hself & Hm & Hgone & Hsub & Hev).
  rewrite (bind_ok _ _ _ _ _ Hrm). unfold raise.
  eexists. split; [reflexivity|]. repeat split.
  - rewrite Hm. subst σu. simpl. apply not_elem_of_difference. right.
    by apply elem_of_singleton.
  - exact Hgone.
  - intros q n Hq. apply Hsub in Hq. subst σu. simpl in Hq.
    by apply outside_lookup_Some in Hq.
  - etrans; [|exact Hev].
    exists [Log Info "Unmounting image..."; Run (SudoUmount mp); Run (Sleep "1")].
    split; [|by repeat constructor]. subst σu. unfold added. simpl.
    by rewrite <- !app_assoc.
Qed.


(** C1 (as amended). When the delegation or the manifest generation
    raises an ordinary exception, and the unmount command succeeds and the
    removal of the working image is permitted, [main] unmounts the mount
    point, removes the working image and raises one [RuntimeError] that
    carries the original exception as its cause; the cleanup adds no
    file-system entry and runs nothing but the unmount, the wait and the
    removal, so the output image is not produced. *)
Theorem failure_recovery (E : Env) (σ σ1 σ2 : St) (e : exn) :
  setup E σ = Ok () σ1 →
  delegate_and_manifest E σ1 = Raise e σ2 →
  is_Exception e = true →
  (∀ w, exit_status E (SudoUmount (target_mount_point (self σ2))) w = 0) →
  (∀ w, os_fault E (OsRemove (modified_image_file (self σ2))) w = None) →
  ∃ σ3,
    main E σ = Raise (RuntimeError ("Chimg logic failed: " +:+ exn_str e) (Some e)) σ3 ∧
    (target_mount_point (self σ2) ∉ mounts (world σ3)) ∧
    os_path_exists (world σ3) (modified_image_file (self σ2)) = false ∧
    (∀ q n, fs (world σ3) !! q = Some n → fs (world σ2) !! q = Some n) ∧
    only_events is_recovery_event (world σ2) (world σ3).
Proof.
  intros H1 H2 He Hrc Hf.
  rewrite (main_delegation_raised E σ σ1 e σ2 H1 H2), He.
  apply cleanup_completes; assumption.
Qed.

Lemma failure_recovery_witness :
  ∃ σ3,
    main Scenario.delegate_fails Scenario.start =
      Raise (RuntimeError ("Chimg logic failed: " +:+ exn_str (Foreign true "apt-get failed"))
               (Some (Foreign true "apt-get failed"))) σ3 ∧
    (target_mount_point (self (Scenario.after_delegation Scenario.delegate_fails))
       ∉ mounts (world σ3)) ∧
    os_path_exists (world σ3)
      (modified_image_file (self (Scenario.after_delegation Scenario.delegate_fails))) = false ∧
    (∀ q n, fs (world σ3) !! q = Some n →
            fs (world (Scenario.after_delegation Scenario.delegate_fails)) !! q = Some n) ∧
    only_events is_recovery_event
      (world (Scenario.after_delegation Scenario.delegate_fails)) (world σ3).
Proof.
  apply (failure_recovery Scenario.delegate_fails Scenario.start
           (Scenario.after_setup Scenario.delegate_fails)
           (Scenario.after_delegation Scenario.delegate_fails)
           (Foreign true "apt-get failed")).
  - vm_compute. reflexivity.
  - vm_compute. reflexivity.
  - reflexivity.
  - intros w. vm_compute. reflexivity.
  - intros w. vm_compute. reflexivity.
Defined.

(** The claim as stated fails in three ways.  An artifact collision ends
    the run with [SystemExit], which the handler does not catch: the image
    stays mounted and the working image stays.  When the unmount of the
    cleanup fails, its [CalledProcessError] is what reaches the caller and
    the working image stays.  When the working image cannot be removed, the
    error of [os.remove] is what reaches the caller. *)
Lemma failure_recovery_counterexample :
  (∃ σ', main (Scenario.calm Scenario.bare_tree) Scenario.start_with_old_manifest
           = Raise (SystemExit 1) σ' ∧
         ("mnt" ∈ mounts (world σ')) ∧
         os_path_exists (world σ') "in.modifying" = true)
  ∧ (∃ σ', main Scenario.delegate_and_umount_fail Scenario.start
             = Raise (CalledProcessError ["sudo"; "umount"; "mnt"] 32) σ' ∧
           os_path_exists (world σ') "in.modifying" = true)
  ∧ (∃ σ', main Scenario.delegate_fails_image_protected Scenario.start
             = Raise (Foreign true "[Errno 13] Permission denied: 'in.modifying'") σ' ∧
           os_path_exists (world σ') "in.modifying" = true).
Proof.
  split; [|split].
  - exists (state_of (main (Scenario.calm Scenario.bare_tree)
                        Scenario.start_with_old_manifest)).
    split; [vm_compute; reflexivity|]. split; [by_evaluation | vm_compute; reflexivity].
  - exists (state_of (main Scenario.delegate_and_umount_fail Scenario.start)).
    split; vm_compute; reflexivity.
  - exists (state_of (main Scenario.delegate_fails_image_protected Scenario.start)).
    split; vm_compute; reflexivity.
Qed.

(** C3 (as amended). When the unmount command of the cleanup fails, its
    [CalledProcessError] is what [main] raises, in place of the wrapped
    delegation error; the cleanup stops there: the file system and the
    mount table stay as the failed delegation left them (the working image
    included), and the trace gains the unmount and its announcement only,
    so nothing is logged as a warning. *)
Theorem unmount_failure_replaces_error (E : Env) (σ σ1 σ2 : St) (e : exn) :
  setup E σ = Ok () σ1 →
  delegate_and_manifest E σ1 = Raise e σ2 →
  is_Exception e = true →
  (∀ w, exit_status E (SudoUmount (target_mount_point (self σ2))) w ≠ 0) →
  ∃ rc σ3,
    rc ≠ 0 ∧
    main E σ = Raise (CalledProcessError ["sudo"; "umount"; target_mount_point (self σ2)] rc) σ3 ∧
    fs (world σ3) = fs (world σ2) ∧
    mounts (world σ3) = mounts (world σ2) ∧
    trace (world σ3) =
      trace (world σ2) ++ [Log Info "Unmounting image...";
                           Run (SudoUmount (target_mount_point (self σ2)))].
Proof.
  intros H1 H2 He Hrc.
  rewrite (main_delegation_raised E σ σ1 e σ2 H1 H2), He.
  unfold cleanup_on_failure.
  rewrite (bind_raise _ _ _ _ _ (unmount_failed E σ2 (Hrc _))).
  eexists _, _. split; [apply Hrc|]. split; [reflexivity|].
  simpl. repeat split. by rewrite <- app_assoc.
Qed.

Lemma unmount_failure_replaces_error_witness :
  ∃ rc σ3,
    rc ≠ 0 ∧
    main Scenario.delegate_and_umount_fail Scenario.start =
      Raise (CalledProcessError
               ["sudo"; "umount";
                target_mount_point
                  (self (Scenario.after_delegation Scenario.delegate_and_umount_fail))] rc) σ3 ∧
    fs (world σ3) = fs (world (Scenario.after_delegation Scenario.delegate_and_umount_fail)) ∧
    mounts (world σ3)
      = mounts (world (Scenario.after_delegation Scenario.delegate_and_umount_fail)) ∧
    trace (world σ3) =
      trace (world (Scenario.after_delegation Scenario.delegate_and_umount_fail))
      ++ [Log Info "Unmounting image...";
          Run (SudoUmount
                 (target_mount_point
                    (self (Scenario.after_delegation Scenario.delegate_and_umount_fail))))].
Proof.
  apply (unmount_failure_replaces_error Scenario.delegate_and_umount_fail Scenario.start
           (Scenario.after_setup Scenario.delegate_and_umount_fail)
           (Scenario.after_delegation Scenario.delegate_and_umount_fail)
           (Foreign true "apt-get failed")).
  - vm_compute. reflexivity.
  - vm_compute. reflexivity.
  - reflexivity.
  - intros w. vm_compute. intros H. discriminate H.
Defined.

(** The chroot engine fails and the unmount fails after it: the caller
    gets the error of the unmount, not the delegation error nor its
    wrapping, no warning is logged, and the image is still mounted. *)
Lemma unmount_failure_masks_counterexample :
  raised (main Scenario.delegate_and_umount_fail Scenario.start)
    = Some (CalledProcessError ["sudo"; "umount"; "mnt"] 32) ∧
  existsb is_warning
    (trace (world (state_of (main Scenario.delegate_and_umount_fail Scenario.start)))) = false ∧
  mounts (world (state_of (main Scenario.delegate_and_umount_fail Scenario.start)))
    = {["mnt"]}.
Proof. evaluate_all. Qed.

(** ** The shim on the two paths of [main] *)

Lemma run_check_trace E c w w' :
  subprocess_run_check E c w = Ok () w' → trace w' = trace w ++ [Run c].
Proof.
  unfold subprocess_run_check, subprocess_run, bind, ret, raise.
  cbn [returncode]. destruct (bool_decide _); [|done]. intros [= <-].
  cbn [record trace]. by rewrite trace_cmd_effect.
Qed.

Lemma liftW_returned {A} (m : M World A) σ a σ' :
  liftW m σ = Ok a σ' → ∃ w', m (world σ) = Ok a w' ∧ σ' = mkSt (self σ) w'.
Proof.
  unfold liftW. destruct (m (world σ)) as [a' w'|]; [|done].
  intros [= <- <-]. eauto.
Qed.

Lemma lifted_run_check_trace E c σ σ' :
  liftW (subprocess_run_check E c) σ = Ok () σ' →
  self σ' = self σ ∧ trace (world σ') = trace (world σ) ++ [Run c].
Proof.
  intros (w' & H & ->)%liftW_returned. split; [done|]. by apply run_check_trace in H.
Qed.

Lemma restore_trace E σ σ' :
  _restore_resolv_conf E σ = Ok () σ' →
  self σ' = self σ ∧
  ∃ note rest,
    trace (world σ') =
    trace (world σ) ++ Log Info note
      :: Run (SudoRmForce (resolv_path (target_mount_point (self σ)))) :: rest.
Proof.
  unfold _restore_resolv_conf. unfold bind at 1. cbn [get_self ask].
  unfold bind at 1. cbn [ask].
  destruct (resolv_conf_existed (self σ) && _).
  - unfold bind at 1. cbn [liftW log]. set (σa := mkSt _ _).
    unfold bind at 1.
    destruct (liftW _ σa) as [[] σb|] eqn:Hb; [|done].
    intros Hc. apply lifted_run_check_trace in Hb as [Hs1 Ht1].
    apply lifted_run_check_trace in Hc as [Hs2 Ht2].
    split; [by rewrite Hs2, Hs1|].
    eexists _, [_]. rewrite Ht2, Ht1. subst σa. cbn [world record trace].
    rewrite <- !app_assoc. reflexivity.
  - unfold bind at 1. cbn [liftW log]. set (σa := mkSt _ _).
    intros Hb. apply lifted_run_check_trace in Hb as [Hs1 Ht1].
    split; [by rewrite Hs1|].
    eexists _, []. rewrite Ht1. subst σa. cbn [world record trace].
    rewrite <- !app_assoc. reflexivity.
Qed.






(** ** The object's fixed fields *)

Lemma job_liftW {A} (m : M World A) : respects same_job (liftW m).
Proof.
  intros σ. unfold liftW, same_job. destruct (m (world σ)); simpl; tauto.
Qed.

Lemma job_set_type t : respects same_job (set_input_image_type t).
Proof. intros σ. unfold same_job. simpl. tauto. Qed.

Lemma job_set_existed b : respects same_job (set_resolv_conf_existed b).
Proof. intros σ. unfold same_job. simpl. tauto. Qed.

Ltac respect_job :=
  repeat first [ apply job_liftW | apply job_set_type | apply job_set_existed
               | respect_structure ].

Lemma setup_same_job E : respects same_job (setup E).
Proof.
  unfold setup, _ensure_paths, _remove_existing_modified_image,
    _validate_input_image_exists, _convert_or_copy_image, _get_partition_offset,
    _mount_image, _handle_resolv_conf.
  respect_job.
Qed.

(** ** No SBOM from the lifecycle *)

Lemma manifest_is_not_sbom B :
  negb (is_sbom_event B (Os (OpenWrite (manifest_file B)))) = true.
Proof.
  unfold is_sbom_event, manifest_file, sbom_file_name.
  rewrite !bool_decide_eq_false_2; [done | |]; intros H%(inj (String.app B)); discriminate.
Qed.

Lemma filelist_is_not_sbom B :
  negb (is_sbom_event B (Os (OpenWrite (filelist_file B)))) = true.
Proof.
  unfold is_sbom_event, filelist_file, sbom_file_name.
  rewrite !bool_decide_eq_false_2; [done | |]; intros H%(inj (String.app B)); discriminate.
Qed.

Ltac no_sbom_step :=
  apply only_events_step;
  [ trace_same
  | first [ reflexivity | apply manifest_is_not_sbom | apply filelist_is_not_sbom ] ].

Lemma setup_no_sbom E B : respects (on_world (no_sbom B)) (setup E).
Proof.
  unfold no_sbom, setup, _ensure_paths, _remove_existing_modified_image,
    _validate_input_image_exists, _convert_or_copy_image, _get_partition_offset,
    _mount_image, _handle_resolv_conf, os_makedirs, os_remove, shutil_copy.
  respect no_sbom_step.
Qed.

Lemma create_final_image_no_sbom E B : respects (on_world (no_sbom B)) (create_final_image E).
Proof.
  unfold no_sbom, create_final_image, _restore_resolv_conf, _unmount_image,
    _produce_final_image, os_remove, shutil_copy.
  respect no_sbom_step.
Qed.

Lemma cleanup_no_sbom E B e : respects (on_world (no_sbom B)) (cleanup_on_failure E e).
Proof.
  unfold no_sbom, cleanup_on_failure, _unmount_image, _remove_existing_modified_image,
    os_remove.
  respect no_sbom_step.
Qed.

(** Manifest generation without the SBOM flag, for the base path it is
    given. *)
Lemma create_manifest_no_sbom E base sbom_log ov :
  respects (on_world (no_sbom (py_str base))) (create_manifest E base false sbom_log ov).
Proof.
  unfold no_sbom, create_manifest. cbn [when].
  apply respects_bind; solve_preorder; [respect no_sbom_step|]. intros s.
  cbv zeta.
  apply respects_bind; solve_preorder.
  { apply respects_for_each; solve_preorder. intros file _.
    unfold check_artifact, os_remove. respect no_sbom_step. }
  intros _. unfold open_write. respect no_sbom_step.
Qed.

Lemma do_chrootfs_no_sbom E args :
  Namespace.generate_sbom args = false →
  respects (on_world (no_sbom (py_str (Namespace.output_files_name args))))
    (do_chrootfs E args).
Proof.
  intros Hflag. unfold do_chrootfs. rewrite Hflag.
  pose proof (create_manifest_no_sbom E (Namespace.output_files_name args) PyNone
                (Namespace.overwrite args)) as Hcm.
  unfold no_sbom in *.
  repeat first [ exact Hcm | respect_structure | respect_operation no_sbom_step ].
Qed.

Lemma delegate_and_manifest_no_sbom E σ :
  no_sbom (output_files_name (self σ)) (world σ)
    (world (state_of (delegate_and_manifest E σ))).
Proof.
  unfold delegate_and_manifest. unfold bind at 1. cbn [get_self ask].
  assert (respects (on_world (no_sbom (output_files_name (self σ))))
            (do_chrootfs E (main_args (self σ)) ;;
             liftW (log Info ("Successfully invoked chimg chrootfs with config file: " +:+
                              chimg_config_file (self σ))))) as R.
  { apply respects_bind; solve_preorder;
      [apply (do_chrootfs_no_sbom E (main_args (self σ)) eq_refl)|].
    intros _. unfold no_sbom. respect no_sbom_step. }
  apply (R σ).
Qed.

Lemma main_no_sbom E σ :
  no_sbom (output_files_name (self σ)) (world σ) (world (state_of (main E σ))).
Proof.
  set (B := output_files_name (self σ)).
  pose proof (setup_no_sbom E B σ) as Hsetup.
  pose proof (setup_same_job E σ) as Hjob.
  unfold main, bind, try_except.
  destruct (setup E σ) as [[] σ1|e1 σ1]; simpl in *; [|exact Hsetup].
  assert (output_files_name (self σ1) = B) as HB by apply Hjob.
  pose proof (delegate_and_manifest_no_sbom E σ1) as Hdel. rewrite HB in Hdel.
  unfold on_world in Hsetup.
  destruct (delegate_and_manifest E σ1) as [[] σ2|e σ2]; simpl in *.
  - pose proof (create_final_image_no_sbom E B σ2) as Hfin. unfold on_world in Hfin.
    etrans; [exact Hsetup|]. etrans; [exact Hdel|]. exact Hfin.
  - destruct (is_Exception e).
    + pose proof (cleanup_no_sbom E B e σ2) as Hcl. unfold on_world in Hcl.
      destruct (cleanup_on_failure E e σ2) as [[] σ3|e3 σ3]; simpl in *.
      * pose proof (create_final_image_no_sbom E B σ3) as Hfin. unfold on_world in Hfin.
        etrans; [exact Hsetup|]. etrans; [exact Hdel|]. etrans; [exact Hcl | exact Hfin].
      * etrans; [exact Hsetup|]. etrans; [exact Hdel | exact Hcl].
    + simpl. etrans; [exact Hsetup | exact Hdel].
Qed.

Lemma init_returned inp out mp cfg ov w obj w' :
  __init__ inp out mp cfg ov w = Ok obj w' →
  w' = w ∧ with_suffix out "" = inr (output_files_name obj).
Proof.
  unfold __init__, bind, lift_exn, ask, ret, raise.
  destruct (with_suffix inp ".modifying"); [done|].
  destruct (with_suffix out "") as [|names]; [done|].
  destruct (_ && _); [done|]. by intros [= <- <-].
Qed.

Lemma init_raised inp out mp cfg ov w e w' :
  __init__ inp out mp cfg ov w = Raise e w' → w' = w.
Proof.
  unfold __init__, bind, lift_exn, ask, ret, raise.
  destruct (with_suffix inp ".modifying"); [by intros [= _ <-]|].
  destruct (with_suffix out ""); [by intros [= _ <-]|].
  destruct (_ && _); [by intros [= _ <-] | done].
Qed.

(** C10. [main] hands [generate_sbom=False] to the manifest generation,
    and whatever a run of [main] does, it never runs the SBOM tool or its
    installation and never opens [B.sbom.spdx] or [B.sbom.log] for writing,
    [B] being the output path without its suffix.  The same holds for the
    [customize-image] entry point, whose arguments carry no SBOM flag. *)
Theorem lifecycle_never_generates_sbom (E : Env) :
  (∀ σ,
     Namespace.generate_sbom (main_args (self σ)) = false ∧
     no_sbom (output_files_name (self σ)) (world σ) (world (state_of (main E σ))))
  ∧ (∀ args w B,
       with_suffix (cli.output_image_path args) "" = inr B →
       no_sbom B w (state_of (customize_image_entry_point E args w))).
Proof.
  split; [intros σ; split; [reflexivity | apply main_no_sbom]|].
  intros args w B HB. unfold customize_image_entry_point.
  assert (∀ lvl msg, respects (no_sbom B) (log lvl msg ;; raise (A := unit) (SystemExit 1)))
    as Hexit.
  { intros lvl msg. unfold no_sbom. respect no_sbom_step. }
  unfold bind at 1. cbn [ask].
  unfold bind at 1.
  match goal with
  | |- context [when ?c ?body w] =>
      pose proof (respects_when (no_sbom B) c body (Hexit _ _) w) as H1;
      destruct (when c body w) as [[] w1|]; simpl in H1 |- *; [|exact H1]
  end.
  unfold bind at 1. cbn [ask].
  unfold bind at 1.
  match goal with
  | |- context [when ?c ?body w1] =>
      pose proof (respects_when (no_sbom B) c body (Hexit _ _) w1) as H2;
      destruct (when c body w1) as [[] w2|]; simpl in H2 |- *;
        [|etrans; [exact H1 | exact H2]]
  end.
  unfold bind.
  destruct (__init__ _ _ _ _ _ w2) as [obj w3|e w3] eqn:Hinit; simpl.
  - apply init_returned in Hinit as [-> Hnames].
    rewrite HB in Hnames. injection Hnames as Hnames.
    pose proof (main_no_sbom E (mkSt obj w2)) as H3. simpl in H3. rewrite <- Hnames in H3.
    unfold on_object. destruct (main E _); simpl in *;
      (etrans; [exact H1|]; etrans; [exact H2 | exact H3]).
  - apply init_raised in Hinit as ->. etrans; [exact H1 | exact H2].
Qed.

(** ** Manifest generation leaves the mounted root alone *)

Global Instance root_kept_preorder mp : PreOrder (root_kept mp).
Proof.
  split.
  - intros w. reflexivity.
  - intros w1 w2 w3 H1 H2. unfold root_kept in *. congruence.
Qed.

Lemma below_insert_outside mp p n (m : gmap string node) :
  under mp p = false → below mp (<[p := n]> m) = below mp m.
Proof.
  intros H. unfold below. apply map_filter_insert_not. intros y. simpl. congruence.
Qed.

Lemma below_delete_outside mp p (m : gmap string node) :
  under mp p = false → below mp (delete p m) = below mp m.
Proof.
  intros H. unfold below. apply map_filter_delete_not. intros y _. simpl. congruence.
Qed.

Lemma cmd_effect_keeps_root E mp c rc w :
  cmd_writes_outside mp c → root_view mp (cmd_effect E c rc w) = root_view mp w.
Proof.
  unfold root_view.
  destruct c; simpl; intros H; repeat case_match; simpl;
    try done; destruct_and?;
    rewrite ?below_insert_outside, ?below_delete_outside by done; done.
Qed.

Lemma os_effect_keeps_root mp op w w' :
  os_writes_outside mp op → os_effect op w = inr w' → root_view mp w' = root_view mp w.
Proof.
  unfold root_view.
  destruct op; simpl; intros H; repeat case_match; intros [= <-]; simpl;
    rewrite ?below_insert_outside, ?below_delete_outside by done; done.
Qed.

Lemma root_kept_step mp ev w w' :
  root_view mp w' = root_view mp w → root_kept mp w (record ev w').
Proof. intros H. exact H. Qed.

Ltac root_step :=
  apply root_kept_step;
  first
    [ reflexivity
    | apply cmd_effect_keeps_root; simpl; by auto
    | eapply os_effect_keeps_root; [|eassumption]; simpl; by auto
    | unfold root_view; simpl; apply below_insert_outside; assumption ].

Lemma check_artifact_keeps_root E mp ov file :
  under mp file = false → respects (on_world (root_kept mp)) (check_artifact E ov file).
Proof. intros H. unfold check_artifact, os_remove. respect root_step. Qed.

Lemma generate_keeps_root E mp chroot_root B sbom_log gen :
  under mp (manifest_file B) = false →
  under mp (filelist_file B) = false →
  under mp (sbom_file_name B) = false →
  under mp sbom_log = false →
  respects (on_world (root_kept mp)) (generate E chroot_root B sbom_log gen).
Proof.
  intros H1 H2 H3 H4.
  unfold generate, generate_sbom_step, open_write.
  respect root_step.
Qed.

(** ** Two runs of the manifest generation, side by side *)

Ltac sublist_of_cons :=
  let x := fresh in let Hx := fresh in
  intros x Hx; rewrite ?elem_of_cons in *; tauto.

Section Related.
Context {Σ : Type}.
Implicit Types R : Σ → Σ → Prop.

Lemma related_ret {A} R (a : A) : related R R (ret a).
Proof. intros σ1 σ2 H. simpl. by split. Qed.

Lemma related_raise {A} R R' e : related R R' (raise (A := A) e).
Proof. intros σ1 σ2 H. reflexivity. Qed.

Lemma related_bind {A B} R R' R'' (m : M Σ A) (k : A → M Σ B) :
  related R R' m → (∀ a, related R' R'' (k a)) → related R R'' (bind m k).
Proof.
  intros Hm Hk σ1 σ2 H. specialize (Hm σ1 σ2 H). unfold bind.
  destruct (m σ1) as [a1 σ1'|e1 σ1'], (m σ2) as [a2 σ2'|e2 σ2']; try done.
  destruct Hm as [<- Hm]. apply Hk, Hm.
Qed.

Lemma related_post {A} R R1 R' (m : M Σ A) :
  related R R1 m → (∀ x y, R1 x y → R' x y) → related R R' m.
Proof.
  intros Hm Hw σ1 σ2 H. specialize (Hm σ1 σ2 H).
  destruct (m σ1), (m σ2); try done. destruct Hm. split; auto.
Qed.

Lemma related_when R c (body : M Σ unit) : related R R body → related R R (when c body).
Proof. intros H. destruct c; [exact H | apply related_ret]. Qed.

Lemma related_ask {A} R (f : Σ → A) :
  (∀ σ1 σ2, R σ1 σ2 → f σ1 = f σ2) → related R R (ask f).
Proof. intros Hf σ1 σ2 H. simpl. split; [by apply Hf | done]. Qed.
End Related.

Lemma agree_same_fs mp S w1 w2 w1' w2' :
  fs w1' = fs w1 → fs w2' = fs w2 → agree mp S w1 w2 → agree mp S w1' w2'.
Proof. unfold agree, root_view. intros -> ->. done. Qed.

Lemma agree_weaken mp S S' w1 w2 : S' ⊆ S → agree mp S w1 w2 → agree mp S' w1 w2.
Proof. intros Hsub [Hr Hf]. split; [done|]. intros p Hp. apply Hf, Hsub, Hp. Qed.

Lemma agree_write mp S p c w1 w2 :
  under mp p = false → agree mp S w1 w2 →
  agree mp (p :: S) (set_fs <[p := File c]> w1) (set_fs <[p := File c]> w2).
Proof.
  intros Hp [Hr Hf]. split.
  - unfold root_view in *. simpl. by rewrite !below_insert_outside.
  - intros q Hq. simpl. destruct (decide (p = q)) as [<-|Hne].
    + exists c. by rewrite !lookup_insert_eq.
    + rewrite !lookup_insert_ne by done. apply Hf.
      apply elem_of_cons in Hq as [->|Hq]; done.
Qed.

Lemma read_regular_file (m : gmap string node) p c :
  m !! p = Some (File c) → read_text m p = Some c.
Proof. intros H. unfold read_text, stat. simpl. by rewrite H. Qed.

Lemma agree_read mp S p w1 w2 :
  p ∈ S → agree mp S w1 w2 →
  ∃ c, read_text (fs w1) p = Some c ∧ read_text (fs w2) p = Some c.
Proof.
  intros Hp [_ Hf]. destruct (Hf p Hp) as (c & H1 & H2).
  exists c. split; by apply read_regular_file.
Qed.

Section RelatedWorld.
Context (E : Env) (mp : string) (Hloc : reads_root_only E mp).

Lemma related_liftW {A} S S' (m : M World A) :
  related (agree mp S) (agree mp S') m →
  related (same_view mp S) (same_view mp S') (liftW m).
Proof.
  intros Hm σ1 σ2 [Hs H]. specialize (Hm _ _ H). unfold liftW.
  destruct (m (world σ1)), (m (world σ2)); try done.
  destruct Hm as [<- Hm]. split; [done|]. by split.
Qed.

Lemma related_get_self S : related (same_view mp S) (same_view mp S) get_self.
Proof. apply related_ask. by intros σ1 σ2 [H _]. Qed.

Lemma related_log S lvl msg : related (agree mp S) (agree mp S) (log lvl msg).
Proof.
  intros w1 w2 H. simpl. split; [done|]. by apply (agree_same_fs mp S w1 w2).
Qed.

Lemma related_open_write S p :
  under mp p = false → related (agree mp S) (agree mp (p :: S)) (open_write E p).
Proof.
  intros Hp w1 w2 H. unfold open_write, os_call.
  rewrite !(nothing_refused E mp Hloc). simpl. split; [done|].
  eapply agree_same_fs; [| |by apply (agree_write mp S p "" w1 w2)]; done.
Qed.

Lemma related_open_read S p :
  p ∈ S → related (agree mp S) (agree mp S) (open_read E p).
Proof.
  intros Hp w1 w2 H. destruct (agree_read mp S p w1 w2 Hp H) as (c & H1 & H2).
  unfold open_read, bind, os_call, ask.
  rewrite !(nothing_refused E mp Hloc). simpl. rewrite H1, H2. simpl.
  rewrite H1, H2. split; [done|]. by apply (agree_same_fs mp S w1 w2).
Qed.

(** A command whose effect keeps the two sides in agreement. *)
Lemma related_run S S' c :
  (∀ w1 w2 rc,
     agree mp S w1 w2 → stdout_of E c w1 = stdout_of E c w2 →
     stderr_of E c w1 = stderr_of E c w2 →
     agree mp S' (cmd_effect E c rc w1) (cmd_effect E c rc w2)) →
  related (agree mp S) (agree mp S') (subprocess_run E c).
Proof.
  intros Heff w1 w2 H. unfold subprocess_run.
  pose proof (local_status E mp Hloc c w1 w2 (proj1 H)) as Hrc.
  pose proof (local_stdout E mp Hloc c w1 w2 (proj1 H)) as Hout.
  pose proof (local_stderr E mp Hloc c w1 w2 (proj1 H)) as Herr.
  rewrite <- Hrc, <- Hout. split; [done|].
  eapply agree_same_fs; [| |by apply (Heff w1 w2 (exit_status E c w1))]; done.
Qed.

Lemma related_run_check S S' c :
  (∀ w1 w2 rc,
     agree mp S w1 w2 → stdout_of E c w1 = stdout_of E c w2 →
     stderr_of E c w1 = stderr_of E c w2 →
     agree mp S' (cmd_effect E c rc w1) (cmd_effect E c rc w2)) →
  related (agree mp S) (agree mp S') (subprocess_run_check E c).
Proof.
  intros Heff. unfold subprocess_run_check.
  eapply related_bind; [by apply related_run|].
  intros p. destruct (bool_decide _); [apply related_ret | apply related_raise].
Qed.

Lemma effect_redirected_stdout S c out w1 w2 rc :
  (cmd_effect E c rc w1 = set_fs <[out := File (stdout_of E c w1)]> w1) →
  (cmd_effect E c rc w2 = set_fs <[out := File (stdout_of E c w2)]> w2) →
  under mp out = false →
  agree mp S w1 w2 → stdout_of E c w1 = stdout_of E c w2 →
  agree mp (out :: S) (cmd_effect E c rc w1) (cmd_effect E c rc w2).
Proof.
  intros -> -> Hout H Heq. rewrite Heq. by apply agree_write.
Qed.

Lemma effect_sort S f w1 w2 rc :
  f ∈ S → under mp f = false → agree mp S w1 w2 →
  agree mp S (cmd_effect E (SortInPlace f) rc w1) (cmd_effect E (SortInPlace f) rc w2).
Proof.
  intros Hf Hout H. destruct (agree_read mp S f w1 w2 Hf H) as (c & H1 & H2).
  simpl. rewrite H1, H2. destruct (bool_decide _); [|done].
  eapply agree_weaken; [|by apply agree_write]. sublist_of_cons.
Qed.

Lemma effect_cpc_sbom S root name out err w1 w2 rc :
  under mp out = false → under mp err = false → agree mp S w1 w2 →
  stdout_of E (CpcSbom root name out err) w1 = stdout_of E (CpcSbom root name out err) w2 →
  stderr_of E (CpcSbom root name out err) w1 = stderr_of E (CpcSbom root name out err) w2 →
  agree mp (err :: S)
    (cmd_effect E (CpcSbom root name out err) rc w1)
    (cmd_effect E (CpcSbom root name out err) rc w2).
Proof.
  intros Ho He H Hso Hse. simpl. rewrite Hso, Hse.
  pose proof (agree_write mp S out
                (stdout_of E (CpcSbom root name out err) w2) w1 w2 Ho H) as H1.
  pose proof (agree_write mp _ err
                (stderr_of E (CpcSbom root name out err) w2) _ _ He H1) as H2.
  eapply agree_weaken; [|exact H2]. sublist_of_cons.
Qed.

Lemma related_snap_seed_parse S chroot out :
  out ∈ S → under mp out = false →
  related (agree mp S) (agree mp S) (snap_seed_parse E chroot out).
Proof.
  intros Hin Hout w1 w2 H. unfold snap_seed_parse.
  rewrite <- (local_snaps E mp Hloc chroot out w1 w2 (proj1 H)).
  destruct (agree_read mp S out w1 w2 Hin H) as (c & H1 & H2). rewrite H1, H2.
  destruct (snap_seed_parse_main E chroot out w1) as [f|e]; [|done].
  split; [done|].
  eapply agree_same_fs; [| |eapply agree_weaken; [|by apply (agree_write mp S out (f c))]];
    [done | done | sublist_of_cons].
Qed.
End RelatedWorld.

Lemma same_view_weaken mp S S' σ1 σ2 :
  S' ⊆ S → same_view mp S σ1 σ2 → same_view mp S' σ1 σ2.
Proof. intros Hsub [Hs H]. split; [done | by eapply agree_weaken]. Qed.

Section RelatedSteps.
Context (E : Env) (mp : string) (Hloc : reads_root_only E mp).

Lemma step_log S lvl msg :
  related (same_view mp S) (same_view mp S) (liftW (log lvl msg)).
Proof. apply related_liftW, related_log. Qed.

Lemma step_open_write S p :
  under mp p = false →
  related (same_view mp S) (same_view mp (p :: S)) (liftW (open_write E p)).
Proof. intros H. by apply related_liftW, related_open_write. Qed.

Lemma step_dpkg_query S root out :
  under mp out = false →
  related (same_view mp S) (same_view mp (out :: S))
    (liftW (subprocess_run_check E (DpkgQueryShow root out))).
Proof.
  intros H. apply related_liftW, related_run_check; [done|].
  intros w1 w2 rc Hag Hso _. by apply effect_redirected_stdout.
Qed.

Lemma step_find S cwd out :
  under mp out = false →
  related (same_view mp S) (same_view mp (out :: S))
    (liftW (subprocess_run_check E (FindXdev cwd out))).
Proof.
  intros H. apply related_liftW, related_run_check; [done|].
  intros w1 w2 rc Hag Hso _. by apply effect_redirected_stdout.
Qed.

Lemma step_sort S f :
  f ∈ S → under mp f = false →
  related (same_view mp S) (same_view mp S)
    (liftW (subprocess_run_check E (SortInPlace f))).
Proof.
  intros Hin H. apply related_liftW, related_run_check; [done|].
  intros w1 w2 rc Hag _ _. by apply effect_sort.
Qed.

Lemma step_snap_seed_parse S chroot out :
  out ∈ S → under mp out = false →
  related (same_view mp S) (same_view mp S) (liftW (snap_seed_parse E chroot out)).
Proof. intros Hin H. by apply related_liftW, related_snap_seed_parse. Qed.

Lemma step_sbom S root B sbom_log :
  under mp (sbom_file_name B) = false → under mp sbom_log = false →
  related (same_view mp S) (same_view mp S) (generate_sbom_step E root B sbom_log).
Proof.
  intros Hf Hl. unfold generate_sbom_step.
  eapply related_bind.
  { apply related_ask. intros σ1 σ2 [_ [Hr _]].
    by apply (local_which E mp Hloc). }
  intros have_tool. eapply related_bind.
  { apply related_when, related_liftW, related_run_check; [done|].
    intros w1 w2 rc Hag _ _. exact Hag. }
  intros _. eapply related_bind; [by apply step_open_write|].
  intros _. eapply related_bind; [by apply step_open_write|].
  intros _. eapply related_bind.
  { apply related_liftW, related_run; [done|].
    intros w1 w2 rc Hag Hso Hse. by apply effect_cpc_sbom. }
  intros result. destruct (negb _).
  - eapply related_bind; [apply step_log|]. intros _.
    eapply related_bind.
    { apply related_liftW, related_open_read; [done|]. by left. }
    intros text. eapply related_bind; [apply step_log|]. intros _.
    apply related_raise.
  - eapply related_post; [apply step_log|].
    intros x y. apply same_view_weaken. sublist_of_cons.
Qed.

(** Started on two states that show the same root, the generation ends
    the same way on both and leaves the same manifest and file list. *)
Lemma generate_related root B sbom_log gen :
  under mp (manifest_file B) = false →
  under mp (filelist_file B) = false →
  under mp (sbom_file_name B) = false →
  under mp sbom_log = false →
  related (same_view mp []) (same_view mp [filelist_file B; manifest_file B])
    (generate E root B sbom_log gen).
Proof.
  intros Hm Hfl Hsb Hlg. unfold generate. cbv zeta.
  eapply related_bind; [apply step_log|]. intros _.
  eapply related_bind; [by apply step_open_write|]. intros _.
  eapply related_bind.
  { eapply related_post; [by apply step_dpkg_query|].
    intros x y. apply (same_view_weaken mp _ [manifest_file B]). sublist_of_cons. }
  intros _.
  eapply related_bind; [apply step_log|]. intros _.
  eapply related_bind; [apply step_log|]. intros _.
  eapply related_bind; [apply step_snap_seed_parse; [by left | done]|]. intros _.
  eapply related_bind; [apply step_log|]. intros _.
  eapply related_bind; [apply step_log|]. intros _.
  eapply related_bind; [apply step_log|]. intros _.
  eapply related_bind; [by apply step_open_write|]. intros _.
  eapply related_bind.
  { eapply related_post; [by apply step_find|].
    intros x y.
    apply (same_view_weaken mp _ [filelist_file B; manifest_file B]). sublist_of_cons. }
  intros _.
  eapply related_bind; [apply step_sort; [by left | done]|]. intros _.
  eapply related_bind; [apply step_log|]. intros _.
  eapply related_bind; [by apply related_when, step_sbom|]. intros _.
  apply step_log.
Qed.
End RelatedSteps.

(** ** The collision checks under [overwrite=True] *)

Lemma check_artifact_overwrites E mp file σ :
  reads_root_only E mp →
  ∃ σ', check_artifact E true file σ = Ok () σ' ∧ self σ' = self σ.
Proof.
  intros Hloc. unfold check_artifact, bind, ask. simpl.
  destruct (os_path_exists (world σ) file) eqn:Hex; simpl.
  - destruct (exists_lexists _ _ Hex) as [n Hn].
    unfold liftW, os_remove, os_call, log. simpl.
    rewrite (nothing_refused E mp Hloc). simpl. rewrite Hn. eauto.
  - eauto.
Qed.

Lemma checks_overwrite E mp files σ :
  reads_root_only E mp →
  ∃ σ', for_each files (check_artifact E true) σ = Ok () σ' ∧ self σ' = self σ.
Proof.
  intros Hloc. revert σ. induction files as [|f files IH]; intros σ; simpl.
  - eauto.
  - destruct (check_artifact_overwrites E mp f σ Hloc) as (σ1 & H1 & Hs1).
    destruct (IH σ1) as (σ2 & H2 & Hs2).
    exists σ2. rewrite (bind_ok _ _ _ _ _ H1). split; [done | congruence].
Qed.

Lemma create_manifest_steps E base gen sbom_log ov σ :
  create_manifest E base gen sbom_log ov σ =
  (for_each [manifest_file (py_str base); filelist_file (py_str base);
             sbom_file_name (py_str base)] (check_artifact E ov) ;;
   generate E (target_mount_point (self σ)) (py_str base)
     (sbom_log_path (py_str base) sbom_log) gen) σ.
Proof. reflexivity. Qed.

Global Instance keeps_self_preorder : PreOrder keeps_self.
Proof.
  split.
  - intros σ. reflexivity.
  - intros σ1 σ2 σ3 H1 H2. unfold keeps_self in *. congruence.
Qed.

Lemma keeps_self_liftW {A} (m : M World A) : respects keeps_self (liftW m).
Proof. intros σ. unfold liftW, keeps_self. by destruct (m (world σ)). Qed.

Lemma generate_keeps_self E root B sbom_log gen :
  respects keeps_self (generate E root B sbom_log gen).
Proof.
  unfold generate, generate_sbom_step.
  repeat first [ apply keeps_self_liftW | respect_structure ].
Qed.

Lemma checks_keep_root E mp ov files :
  Forall (λ f, under mp f = false) files →
  respects (on_world (root_kept mp)) (for_each files (check_artifact E ov)).
Proof.
  intros H. apply respects_for_each; solve_preorder. intros f Hf.
  apply check_artifact_keeps_root. rewrite Forall_forall in H. by apply H.
Qed.

(** C9. In an environment whose tools answer from the mounted root alone
    and where the system refuses no file operation, with the artifacts
    outside the mounted root: when [create_manifest] with [overwrite=True]
    has returned, a second call with the same arguments returns as well
    (it removes the files of the first and writes them again) and leaves
    the manifest and the file list with the same content. *)
Theorem manifest_generation_idempotent
    (E : Env) (σ0 σ1 : St) (base sbom_log : pyval) (gen : bool) :
  let B := py_str base in
  let mp := target_mount_point (self σ0) in
  reads_root_only E mp →
  under mp (manifest_file B) = false →
  under mp (filelist_file B) = false →
  under mp (sbom_file_name B) = false →
  under mp (sbom_log_path B sbom_log) = false →
  create_manifest E base gen sbom_log true σ0 = Ok () σ1 →
  ∃ σ2,
    create_manifest E base gen sbom_log true σ1 = Ok () σ2 ∧
    fs (world σ2) !! manifest_file B = fs (world σ1) !! manifest_file B ∧
    fs (world σ2) !! filelist_file B = fs (world σ1) !! filelist_file B.
Proof.
  intros B mp Hloc Hm Hfl Hsb Hlg Hrun.
  set (files := [manifest_file B; filelist_file B; sbom_file_name B]).
  assert (Forall (λ f, under mp f = false) files) as Hfiles by (by repeat constructor).
  rewrite create_manifest_steps in Hrun. fold B mp files in Hrun.
  (* the first run *)
  destruct (checks_overwrite E mp files σ0 Hloc) as (σ0' & Hc0 & Hs0).
  rewrite (bind_ok _ _ _ _ _ Hc0) in Hrun.
  pose proof (checks_keep_root E mp true files Hfiles σ0) as Hr0.
  rewrite Hc0 in Hr0. unfold on_world, root_kept in Hr0. simpl in Hr0.
  pose proof (generate_keeps_root E mp mp B (sbom_log_path B sbom_log) gen
                Hm Hfl Hsb Hlg σ0') as Hr1.
  pose proof (generate_keeps_self E mp B (sbom_log_path B sbom_log) gen σ0') as Hs1.
  rewrite Hrun in Hr1, Hs1. unfold on_world, root_kept, keeps_self in Hr1, Hs1.
  simpl in Hr1, Hs1.
  (* the second run *)
  rewrite create_manifest_steps.
  assert (target_mount_point (self σ1) = mp) as -> by (by rewrite Hs1, Hs0).
  fold B files.
  destruct (checks_overwrite E mp files σ1 Hloc) as (σ1' & Hc1 & Hs1').
  rewrite (bind_ok _ _ _ _ _ Hc1).
  pose proof (checks_keep_root E mp true files Hfiles σ1) as Hr1'.
  rewrite Hc1 in Hr1'. unfold on_world, root_kept in Hr1'. simpl in Hr1'.
  assert (same_view mp [] σ0' σ1') as Hview.
  { split; [congruence|]. split; [congruence|]. intros p Hp. by apply elem_of_nil in Hp. }
  pose proof (generate_related E mp Hloc mp B (sbom_log_path B sbom_log) gen
                Hm Hfl Hsb Hlg σ0' σ1' Hview) as Hrel.
  rewrite Hrun in Hrel.
  destruct (generate E mp B (sbom_log_path B sbom_log) gen σ1') as [[] σ2|]; [|done].
  destruct Hrel as [_ (_ & _ & Hsame)].
  exists σ2. split; [reflexivity|]. split.
  - destruct (Hsame (manifest_file B)) as (c & H1 & H2); [rewrite !elem_of_cons; tauto|].
    by rewrite H1, H2.
  - destruct (Hsame (filelist_file B)) as (c & H1 & H2); [rewrite !elem_of_cons; tauto|].
    by rewrite H1, H2.
Qed.

Lemma manifest_generation_idempotent_witness :
  ∃ σ2,
    create_manifest (Scenario.calm Scenario.bare_tree) (PyStr "out") true PyNone true
      Scenario.manifest_written = Ok () σ2 ∧
    fs (world σ2) !! manifest_file (py_str (PyStr "out"))
      = fs (world Scenario.manifest_written) !! manifest_file (py_str (PyStr "out")) ∧
    fs (world σ2) !! filelist_file (py_str (PyStr "out"))
      = fs (world Scenario.manifest_written) !! filelist_file (py_str (PyStr "out")).
Proof.
  apply (manifest_generation_idempotent (Scenario.calm Scenario.bare_tree)
           (Scenario.mounted Scenario.bare_tree) Scenario.manifest_written
           (PyStr "out") PyNone true).
  - constructor; intros; reflexivity.
  - vm_compute. reflexivity.
  - vm_compute. reflexivity.
  - vm_compute. reflexivity.
  - vm_compute. reflexivity.
  - vm_compute. reflexivity.
Defined.

(** The content both runs leave. *)
Lemma manifest_content_of_the_run :
  fs (world Scenario.manifest_written) !! "out.manifest"
    = Some (File "bash 5.1-6ubuntu1 core22") ∧
  fs (world Scenario.manifest_written) !! "out.filelist" = Some (File "./etc").
Proof. evaluate_all. Qed.

(* ===================================================================== *)
(** * Further properties of the lifecycle                                 *)
(* ===================================================================== *)

(** ** The mount *)

Lemma mount_returned E offset σ σ' :
  _mount_image E offset σ = Ok () σ' →
  self σ' = self σ ∧ target_mount_point (self σ) ∈ mounts (world σ').
Proof.
  unfold _mount_image, bind, get_self, ask, liftW, subprocess_run, when, raise, ret, log.
  cbn [returncode self world].
  destruct (bool_decide (exit_status E _ (world σ) = 0)) eqn:Hrc; cbn [negb]; [|done].
  intros [= <-]. cbn [self world record mounts cmd_effect]. rewrite Hrc.
  split; [done|]. cbn [set_mounts set_fs mounts]. apply elem_of_union_l.
  by apply elem_of_singleton.
Qed.

(** X1. When the mount command exits with a non-zero status,
    [_mount_image] raises its own [RuntimeError], the file system and the
    mount table stay as they were, and a [setup] that got as far as the
    mount ends with that error: the trace ends with the mount command, so
    no command of the DNS shim has run. *)
Theorem mount_failure_stops_setup (E : Env) (σ0 σs σ : St) (offset : Z) :
  staging E σ0 = Ok () σs →
  _get_partition_offset E σs = Ok offset σ →
  (∀ w, exit_status E
          (SudoMount offset (modified_image_file (self σ)) (target_mount_point (self σ))) w
        ≠ 0) →
  ∃ σ',
    setup E σ0 = Raise (RuntimeError "Error: Failed to mount the image." None) σ' ∧
    fs (world σ') = fs (world σ) ∧
    mounts (world σ') = mounts (world σ) ∧
    trace (world σ') =
      trace (world σ)
      ++ [Run (SudoMount offset (modified_image_file (self σ))
                 (target_mount_point (self σ)))].
Proof.
  intros Hst Hloc Hrc.
  rewrite setup_staged. rewrite (bind_ok _ _ _ _ _ Hst), (bind_ok _ _ _ _ _ Hloc).
  unfold _mount_image, bind, get_self, ask, liftW, subprocess_run, when, raise.
  cbn [returncode self world].
  rewrite (bool_decide_eq_false_2 _ (Hrc _)). cbn [negb].
  eexists. split; [reflexivity|]. cbn [world record cmd_effect fs mounts trace].
  rewrite (bool_decide_eq_false_2 _ (Hrc _)). by repeat split.
Qed.

Lemma mount_failure_stops_setup_witness :
  ∃ σ',
    setup Scenario.mount_fails Scenario.start
      = Raise (RuntimeError "Error: Failed to mount the image." None) σ' ∧
    fs (world σ') = fs (world (Stages.located Scenario.mount_fails)) ∧
    mounts (world σ') = mounts (world (Stages.located Scenario.mount_fails)) ∧
    trace (world σ') =
      trace (world (Stages.located Scenario.mount_fails))
      ++ [Run (SudoMount 1048576
                 (modified_image_file (self (Stages.located Scenario.mount_fails)))
                 (target_mount_point (self (Stages.located Scenario.mount_fails))))].
Proof.
  apply (mount_failure_stops_setup Scenario.mount_fails Scenario.start
           (Stages.staged Scenario.mount_fails) (Stages.located Scenario.mount_fails)
           1048576).
  - vm_compute. reflexivity.
  - vm_compute. reflexivity.
  - intros w. vm_compute. intros H. discriminate H.
Defined.

Lemma shim_mounts_untouched E : respects (on_world mounts_untouched) (_handle_resolv_conf E).
Proof. unfold _handle_resolv_conf. respect mounts_step. Qed.

Lemma setup_raised_in_shim E σ0 σs σl σm offset e σ' :
  staging E σ0 = Ok () σs →
  _get_partition_offset E σs = Ok offset σl →
  _mount_image E offset σl = Ok () σm →
  _handle_resolv_conf E σm = Raise e σ' →
  setup E σ0 = Raise e σ'.
Proof.
  intros Hst Hloc Hm Hsh. rewrite setup_staged.
  rewrite (bind_ok _ _ _ _ _ Hst), (bind_ok _ _ _ _ _ Hloc), (bind_ok _ _ _ _ _ Hm).
  by rewrite (bind_raise _ _ _ _ _ Hsh).
Qed.

(** X2. A failure of the DNS shim comes after the mount and outside the
    [try] of [main]: [main] ends with the shim's exception as it is, the
    mount point is still in the mount table, and since the mount nothing
    has run that unmounts. *)
Theorem shim_failure_leaves_image_mounted
    (E : Env) (σ0 σs σl σm σ' : St) (offset : Z) (e : exn) :
  staging E σ0 = Ok () σs →
  _get_partition_offset E σs = Ok offset σl →
  _mount_image E offset σl = Ok () σm →
  _handle_resolv_conf E σm = Raise e σ' →
  main E σ0 = Raise e σ' ∧
  (target_mount_point (self σl) ∈ mounts (world σ')) ∧
  only_events leaves_mounts (world σm) (world σ').
Proof.
  intros Hst Hloc Hm Hsh.
  pose proof (setup_raised_in_shim E _ _ _ _ _ _ _ Hst Hloc Hm Hsh) as Hsetup.
  split; [unfold main; by rewrite (bind_raise _ _ _ _ _ Hsetup)|].
  destruct (mount_returned E offset σl σm Hm) as [_ Hin].
  pose proof (shim_mounts_untouched E σm) as [Hmounts Hev].
  rewrite Hsh in Hmounts, Hev. simpl in Hmounts, Hev.
  split; [by rewrite Hmounts | exact Hev].
Qed.

Lemma shim_failure_leaves_image_mounted_witness :
  main Scenario.shim_copy_fails Scenario.start
    = Raise (CalledProcessError
               ["sudo"; "cp"; "/etc/resolv.conf"; "mnt/etc/resolv.conf"] 1)
        (state_of (_handle_resolv_conf Scenario.shim_copy_fails
                     (Stages.loop_mounted Scenario.shim_copy_fails))) ∧
  (target_mount_point (self (Stages.located Scenario.shim_copy_fails))
     ∈ mounts (world (state_of (_handle_resolv_conf Scenario.shim_copy_fails
                                  (Stages.loop_mounted Scenario.shim_copy_fails))))) ∧
  only_events leaves_mounts
    (world (Stages.loop_mounted Scenario.shim_copy_fails))
    (world (state_of (_handle_resolv_conf Scenario.shim_copy_fails
                        (Stages.loop_mounted Scenario.shim_copy_fails)))).
Proof.
  apply (shim_failure_leaves_image_mounted Scenario.shim_copy_fails Scenario.start
           (Stages.staged Scenario.shim_copy_fails)
           (Stages.located Scenario.shim_copy_fails)
           (Stages.loop_mounted Scenario.shim_copy_fails) _ 1048576).
  - vm_compute. reflexivity.
  - vm_compute. reflexivity.
  - vm_compute. reflexivity.
  - vm_compute. reflexivity.
Defined.

(** ** A run of [main] that returns *)

Lemma cleanup_never_returns E e σ a σ' : cleanup_on_failure E e σ ≠ Ok a σ'.
Proof.
  unfold cleanup_on_failure, bind, raise.
  destruct (_unmount_image E σ) as [[] σu|]; [|done].
  by destruct (_remove_existing_modified_image E σu).
Qed.

Lemma delegate_same_job E : respects same_job (delegate_and_manifest E).
Proof.
  unfold delegate_and_manifest, do_chrootfs, create_manifest, check_artifact,
    generate_sbom_step.
  respect_job.
Qed.

Lemma unmount_returned E σ σ' :
  _unmount_image E σ = Ok () σ' →
  self σ' = self σ ∧ target_mount_point (self σ) ∉ mounts (world σ').
Proof.
  unfold _unmount_image, bind, get_self, ask, liftW, log,
    subprocess_run_check, subprocess_run, bind, ret, raise.
  cbn [returncode self world].
  destruct (bool_decide (exit_status E _ _ = 0)) eqn:Hrc; [|done].
  intros [= <-]. cbn [self world record mounts cmd_effect]. rewrite Hrc.
  split; [done|]. cbn [set_mounts set_fs mounts].
  apply not_elem_of_difference. right. by apply elem_of_singleton.
Qed.

Lemma finalization_mounts_untouched E :
  respects (on_world mounts_untouched) (_produce_final_image E).
Proof. unfold _produce_final_image, os_remove, shutil_copy. respect mounts_step. Qed.

Lemma main_returned E σ σ' :
  main E σ = Ok () σ' →
  ∃ σ1 σ2,
    setup E σ = Ok () σ1 ∧ delegate_and_manifest E σ1 = Ok () σ2 ∧
    create_final_image E σ2 = Ok () σ'.
Proof.
  unfold main. unfold bind at 1.
  destruct (setup E σ) as [[] σ1|] eqn:Hsetup; [|done].
  unfold bind, try_except.
  destruct (delegate_and_manifest E σ1) as [[] σ2|e σ2] eqn:Hdel.
  - intros H. by exists σ1, σ2.
  - destruct (is_Exception e); [|done].
    destruct (cleanup_on_failure E e σ2) as [a σ3|] eqn:Hcl; [|done].
    by destruct (cleanup_never_returns E e σ2 a σ3).
Qed.

(** X3. Whenever [main] returns, the mount point is no longer in the
    mount table and the working image no longer exists. *)
Theorem main_returns_unmounted_and_clean (E : Env) (σ σ' : St) :
  main E σ = Ok () σ' →
  (target_mount_point (self σ) ∉ mounts (world σ')) ∧
  os_path_exists (world σ') (modified_image_file (self σ)) = false.
Proof.
  intros (σ1 & σ2 & Hsetup & Hdel & Hfin)%main_returned.
  pose proof (setup_same_job E σ) as J1. rewrite Hsetup in J1.
  pose proof (delegate_same_job E σ1) as J2. rewrite Hdel in J2.
  simpl in J1, J2.
  assert (same_job σ σ2) as J by (by etrans).
  destruct J as (_ & _ & Jmp & _ & _ & Jmod & _).
  unfold create_final_image in Hfin. unfold bind at 1 in Hfin. simpl in Hfin.
  set (σa := mkSt _ _) in Hfin.
  unfold bind at 1 in Hfin.
  destruct (_restore_resolv_conf E σa) as [[] σr|] eqn:Hr; [|done].
  unfold bind at 1 in Hfin.
  destruct (_unmount_image E σr) as [[] σu|] eqn:Hu; [|done].
  unfold bind at 1 in Hfin.
  destruct (_produce_final_image E σu) as [[] σp|] eqn:Hp; [|done].
  unfold liftW, log in Hfin. injection Hfin as <-.
  destruct (restore_trace _ _ _ Hr) as [Hs1 _].
  destruct (unmount_returned _ _ _ Hu) as [Hs2 Hout].
  destruct (finalization_returns_only_after_removal _ _ _ Hp) as [Hgone _].
  pose proof (finalization_mounts_untouched E σu) as [Hmounts _]. rewrite Hp in Hmounts.
  simpl in *. rewrite Hs2, Hs1 in Hgone. rewrite Hs1 in Hout.
  subst σa. simpl in *. rewrite Jmod in Hgone. rewrite Jmp in Hout.
  split; [by rewrite Hmounts | exact Hgone].
Qed.

Lemma main_returns_unmounted_and_clean_witness :
  (target_mount_point (self Scenario.start)
     ∉ mounts (world (state_of (main (Scenario.calm Scenario.plain_tree) Scenario.start)))) ∧
  os_path_exists (world (state_of (main (Scenario.calm Scenario.plain_tree) Scenario.start)))
    (modified_image_file (self Scenario.start)) = false.
Proof.
  apply (main_returns_unmounted_and_clean (Scenario.calm Scenario.plain_tree)).
  vm_compute. reflexivity.
Defined.

(** ** The final image *)

(** The entries [_produce_final_image] leaves at the two paths. *)
Lemma finalization_entries (E : Env) (σ σ' : St) (c : string) :
  fs (world σ) !! modified_image_file (self σ) = Some (File c) →
  modified_image_file (self σ) ≠ output_image_path (self σ) →
  _produce_final_image E σ = Ok () σ' →
  fs (world σ') !! output_image_path (self σ) =
    Some (File (if bool_decide (input_image_type (self σ) = "qcow2")
                then qemu_convert E "raw" "qcow2" c else c)) ∧
  fs (world σ') !! modified_image_file (self σ) = None.
Proof.
  intros Hc Hne.
  unfold _produce_final_image. unfold bind at 1. cbn [get_self ask].
  set (s := self σ). unfold bind at 1. cbn [ask].
  set (out := output_image_path s). set (wk := modified_image_file s).
  fold s wk in Hc. fold wk out in Hne.
  intros H.
  (* a previous output is removed *)
  unfold bind at 1 in H.
  assert (∃ σ1, when (os_path_exists (world σ) out)
                  (liftW (os_remove E out) ;;
                   liftW (log Info "Removed existing output image file")) σ = Ok () σ1 ∧
                self σ1 = s ∧ fs (world σ1) !! wk = Some (File c)) as (σ1 & H1 & Hs1 & Hc1).
  { destruct (when _ _ σ) as [[] σ1|] eqn:H1; [|done]. exists σ1. split; [done|].
    destruct (os_path_exists (world σ) out); simpl in H1.
    - unfold bind, liftW, os_remove, os_call, log in H1.
      destruct (os_fault E _ _); [done|]. simpl in H1.
      destruct (fs (world σ) !! out); [|done]. injection H1 as <-. simpl.
      split; [done|]. by rewrite lookup_delete_ne.
    - by injection H1 as <-. }
  rewrite H1 in H.
  (* the conversion or the copy *)
  unfold bind at 1 in H.
  assert (read_text (fs (world σ1)) wk = Some c) as Hread by (by apply read_regular_file).
  match type of H with
  | match ?m σ1 with _ => _ end = _ =>
      assert (∃ σ2, m σ1 = Ok () σ2 ∧ self σ2 = s ∧
                    fs (world σ2) !! out =
                      Some (File (if bool_decide (input_image_type s = "qcow2")
                                  then qemu_convert E "raw" "qcow2" c else c)) ∧
                    fs (world σ2) !! wk = Some (File c)) as (σ2 & H2 & Hs2 & Hout & Hc2)
  end.
  { match type of H with
    | match ?m σ1 with _ => _ end = _ => destruct (m σ1) as [[] σ2|] eqn:H2; [|done]
    end.
    exists σ2. split; [done|].
    destruct (bool_decide (input_image_type s = "qcow2")).
    - unfold bind, liftW, log, subprocess_run_check, subprocess_run, bind, ret, raise in H2.
      cbn [world record returncode] in H2.
      destruct (bool_decide (exit_status E _ _ = 0)) eqn:Hrc; [|done].
      injection H2 as <-. cbn [self world record fs cmd_effect]. rewrite Hrc.
      cbn [fs record]. rewrite Hread. cbn [set_fs fs].
      split; [done|]. split; [by rewrite lookup_insert_eq|].
      by rewrite lookup_insert_ne.
    - unfold bind, liftW, log, shutil_copy, os_call in H2. cbn [world] in H2.
      destruct (os_fault E _ _); [done|]. cbn [os_effect fs record] in H2.
      rewrite Hread in H2. injection H2 as <-. cbn [self world record fs set_fs].
      split; [done|]. split; [by rewrite lookup_insert_eq|].
      by rewrite lookup_insert_ne. }
  rewrite H2 in H.
  (* the working image is removed *)
  unfold bind at 1 in H.
  destruct (liftW (os_remove E wk) σ2) as [[] σ3|] eqn:H3; [|done].
  assert (fs (world σ3) = delete wk (fs (world σ2))) as Hfs3.
  { unfold liftW, os_remove, os_call in H3.
    destruct (os_fault E _ _); [done|]. simpl in H3. rewrite Hc2 in H3.
    by injection H3 as <-. }
  assert (fs (world σ') = fs (world σ3)) as Hfs.
  { unfold bind at 1 in H. cbn [ask] in H.
    destruct (os_path_exists (world σ3) wk);
      unfold bind, liftW, log in H; by injection H as <-. }
  rewrite Hfs, Hfs3. split; [by rewrite lookup_delete_ne | by rewrite lookup_delete_eq].
Qed.

(** X4. When [_produce_final_image] returns for a working image that is
    a regular file and not the output path itself, the output path reads
    as the working image converted from raw to qcow2 when the input was
    recorded as qcow2, and as its verbatim copy otherwise; the working
    image is gone. *)
Theorem finalization_writes_output (E : Env) (σ σ' : St) (c : string) :
  fs (world σ) !! modified_image_file (self σ) = Some (File c) →
  modified_image_file (self σ) ≠ output_image_path (self σ) →
  _produce_final_image E σ = Ok () σ' →
  read_text (fs (world σ')) (output_image_path (self σ)) =
    Some (if bool_decide (input_image_type (self σ) = "qcow2")
          then qemu_convert E "raw" "qcow2" c else c) ∧
  fs (world σ') !! modified_image_file (self σ) = None.
Proof.
  intros Hc Hne H. destruct (finalization_entries E σ σ' c Hc Hne H) as [Hout Hgone].
  split; [by apply read_regular_file | exact Hgone].
Qed.

Lemma finalization_writes_output_witness :
  read_text (fs (world (state_of (_produce_final_image (Scenario.calm Scenario.bare_tree)
                                    Scenario.unmounted))))
    (output_image_path (self Scenario.unmounted))
    = Some (if bool_decide (input_image_type (self Scenario.unmounted) = "qcow2")
            then qemu_convert (Scenario.calm Scenario.bare_tree) "raw" "qcow2" "raw:image"
            else "raw:image") ∧
  fs (world (state_of (_produce_final_image (Scenario.calm Scenario.bare_tree)
                         Scenario.unmounted))) !! modified_image_file (self Scenario.unmounted)
    = None.
Proof.
  apply (finalization_writes_output (Scenario.calm Scenario.bare_tree) Scenario.unmounted).
  - vm_compute. reflexivity.
  - vm_compute. intros H. discriminate H.
  - vm_compute. reflexivity.
Defined.

(** ** The DNS shim, continued *)

Lemma log_ok lvl msg σ :
  liftW (log lvl msg) σ = Ok () (mkSt (self σ) (record (Log lvl msg) (world σ))).
Proof. reflexivity. Qed.

Lemma try_caught {Σ A} catches (body : M Σ A) handler σ e σ' :
  body σ = Raise e σ' → catches e = true →
  try_except catches body handler σ = handler e σ'.
Proof. intros H Hc. unfold try_except. by rewrite H, Hc. Qed.

Lemma restore_branches E σ :
  let resolv := resolv_path (target_mount_point (self σ)) in
  let backup := backup_path (target_mount_point (self σ)) in
  _restore_resolv_conf E σ =
  if resolv_conf_existed (self σ) && os_path_exists (world σ) backup then
    (liftW (log Info "Restoring original resolv.conf") ;;
     liftW (subprocess_run_check E (SudoRmForce resolv)) ;;
     liftW (subprocess_run_check E (SudoMv backup resolv))) σ
  else
    (liftW (log Info "Removing temporary resolv.conf") ;;
     liftW (subprocess_run_check E (SudoRmForce resolv))) σ.
Proof.
  intros resolv backup. unfold _restore_resolv_conf. unfold bind at 1. cbn [get_self ask].
  unfold bind at 1. cbn [ask]. fold resolv backup. by destruct (_ && _).
Qed.

(** X5. When the removal of the injected resolver file fails,
    [create_final_image] ends with that [CalledProcessError] before the
    unmount: the file system and the mount table stay as they were, and the
    trace gains two log records and the failed [rm] only, so the image is
    left mounted and the working image in place. *)
Theorem restore_failure_leaves_image_mounted (E : Env) (σ : St) :
  (∀ w, exit_status E (SudoRmForce (resolv_path (target_mount_point (self σ)))) w ≠ 0) →
  ∃ rc note σ',
    rc ≠ 0 ∧
    create_final_image E σ =
      Raise (CalledProcessError
               ["sudo"; "rm"; "-f"; resolv_path (target_mount_point (self σ))] rc) σ' ∧
    fs (world σ') = fs (world σ) ∧
    mounts (world σ') = mounts (world σ) ∧
    trace (world σ') =
      trace (world σ)
      ++ [Log Info "Creating final image..."; Log Info note;
          Run (SudoRmForce (resolv_path (target_mount_point (self σ))))].
Proof.
  intros Hrc. unfold create_final_image.
  rewrite (bind_ok _ _ _ _ _ (log_ok _ _ σ)). set (σa := mkSt _ _).
  assert (∃ note,
            _restore_resolv_conf E σa =
            Raise (CalledProcessError
                     ["sudo"; "rm"; "-f"; resolv_path (target_mount_point (self σ))]
                     (exit_status E (SudoRmForce (resolv_path (target_mount_point (self σ))))
                        (record (Log Info note) (world σa))))
              (mkSt (self σ)
                 (record (Run (SudoRmForce (resolv_path (target_mount_point (self σ)))))
                    (record (Log Info note) (world σa))))) as [note Hr].
  { rewrite restore_branches. cbv zeta.
    destruct (_ && _); eexists;
      rewrite (bind_ok _ _ _ _ _ (log_ok _ _ σa));
      [rewrite (bind_raise _ _ _ _ _
                  (liftW_raise _ _ _ _ (run_check_failed E _ _ (Hrc _))))
      |rewrite (liftW_raise _ _ _ _ (run_check_failed E _ _ (Hrc _)))];
      cbn [self world cmd_effect]; rewrite (bool_decide_eq_false_2 _ (Hrc _));
      reflexivity. }
  rewrite (bind_raise _ _ _ _ _ Hr).
  eexists _, note, _. split; [apply Hrc|]. split; [reflexivity|].
  subst σa. cbn [self world record fs mounts trace].
  split; [done|]. split; [done|]. rewrite <- !app_assoc. reflexivity.
Qed.

Lemma restore_failure_leaves_image_mounted_witness :
  ∃ rc note σ',
    rc ≠ 0 ∧
    create_final_image
      (Scenario.env Scenario.bare_tree
         (Scenario.fails_on (SudoRmForce "mnt/etc/resolv.conf") 1) None Scenario.no_fault)
      (Scenario.mounted Scenario.bare_tree) =
      Raise (CalledProcessError
               ["sudo"; "rm"; "-f";
                resolv_path (target_mount_point (self (Scenario.mounted Scenario.bare_tree)))]
               rc) σ' ∧
    fs (world σ') = fs (world (Scenario.mounted Scenario.bare_tree)) ∧
    mounts (world σ') = mounts (world (Scenario.mounted Scenario.bare_tree)) ∧
    trace (world σ') =
      trace (world (Scenario.mounted Scenario.bare_tree))
      ++ [Log Info "Creating final image..."; Log Info note;
          Run (SudoRmForce
                 (resolv_path (target_mount_point (self (Scenario.mounted Scenario.bare_tree)))))].
Proof.
  apply (restore_failure_leaves_image_mounted
           (Scenario.env Scenario.bare_tree
              (Scenario.fails_on (SudoRmForce "mnt/etc/resolv.conf") 1) None Scenario.no_fault)
           (Scenario.mounted Scenario.bare_tree)).
  intros w. vm_compute. intros H. discriminate H.
Defined.

Lemma install_steps E σ :
  let resolv := resolv_path (target_mount_point (self σ)) in
  let backup := backup_path (target_mount_point (self σ)) in
  _handle_resolv_conf E σ =
  (when (os_path_lexists (world σ) resolv)
     (liftW (log Info "Backing up existing resolv.conf (may be a symlink)") ;;
      try_except is_CalledProcessError
        (liftW (subprocess_run_check E (SudoCpArchive resolv backup)) ;;
         set_resolv_conf_existed true)
        (λ _, liftW (log Warning "Failed to backup resolv.conf. Proceeding without backup.") ;;
              set_resolv_conf_existed false) ;;
      liftW (subprocess_run_check E (SudoRmForce resolv))) ;;
   liftW (subprocess_run_check E (SudoCp "/etc/resolv.conf" resolv)) ;;
   _ ← liftW (subprocess_run E (SudoLsLong resolv));
   ret ()) σ.
Proof. reflexivity. Qed.

Lemma failed_command_changes_nothing E c rc w :
  rc ≠ 0 →
  match c with
  | DpkgQueryShow _ _ | FindXdev _ _ | CpcSbom _ _ _ _ => False
  | _ => True
  end →
  cmd_effect E c rc w = w.
Proof.
  intros Hrc Hc. destruct c; simpl in *; try done;
    rewrite ?(bool_decide_eq_false_2 _ Hrc); repeat case_match; done.
Qed.

(** X6. When a resolver file is there and its backup by [cp -a] fails,
    while the other commands succeed, [_handle_resolv_conf] still returns:
    it logs the warning, clears the flag, and removes the original all the
    same before it copies the host's file in its place. *)
Theorem failed_backup_still_removes_original (E : Env) (σ : St) :
  let mp := target_mount_point (self σ) in
  os_path_lexists (world σ) (resolv_path mp) = true →
  (∀ w, exit_status E (SudoCpArchive (resolv_path mp) (backup_path mp)) w ≠ 0) →
  (∀ w, exit_status E (SudoRmForce (resolv_path mp)) w = 0) →
  (∀ w, exit_status E (SudoCp "/etc/resolv.conf" (resolv_path mp)) w = 0) →
  ∃ σ',
    _handle_resolv_conf E σ = Ok () σ' ∧
    resolv_conf_existed (self σ') = false ∧
    (Log Warning "Failed to backup resolv.conf. Proceeding without backup."
       ∈ trace (world σ')) ∧
    fs (world σ') =
      match read_text (delete (resolv_path mp) (fs (world σ))) "/etc/resolv.conf" with
      | Some host => <[resolv_path mp := File host]> (delete (resolv_path mp) (fs (world σ)))
      | None => delete (resolv_path mp) (fs (world σ))
      end.
Proof.
  intros mp Hlex Hcp Hrm Hhost.
  rewrite install_steps. cbv zeta. fold mp. rewrite Hlex. cbn [when].
  set (σa := mkSt (self σ)
               (record (Log Info "Backing up existing resolv.conf (may be a symlink)")
                  (world σ))).
  pose proof (liftW_raise _ σa _ _ (run_check_failed E _ _ (Hcp _))) as Hbody.
  rewrite (failed_command_changes_nothing E (SudoCpArchive _ _) _ _ (Hcp _) I) in Hbody.
  match goal with
  | |- context [bind (bind (liftW (log ?l ?m)) ?k) _ σ] =>
      assert (∃ σc, bind (liftW (log l m)) k σ = Ok () σc ∧
                    resolv_conf_existed (self σc) = false ∧
                    (Log Warning "Failed to backup resolv.conf. Proceeding without backup."
                       ∈ trace (world σc)) ∧
                    fs (world σc) = delete (resolv_path mp) (fs (world σ)))
        as (σc & Hblock & Hflag & Hlog & Hfs)
  end.
  { rewrite (bind_ok _ _ _ _ _ (log_ok _ _ σ)). fold σa.
    erewrite (bind_ok _ _ σa ());
      [|exact (try_caught _ _ _ _ _ _ (bind_raise _ _ _ _ _ Hbody) eq_refl)].
    cbv beta. cbn [self world].
    erewrite liftW_ok; [|apply run_check_ok, Hrm].
    eexists. split; [reflexivity|]. cbn [self world resolv_conf_existed].
    split; [done|]. split.
    - cbn [trace record cmd_effect]. rewrite bool_decide_eq_true_2 by done.
      cbn [trace set_fs]. subst σa. cbn [world trace record].
      rewrite !elem_of_app, !list_elem_of_singleton. tauto.
    - cbn [fs record cmd_effect]. rewrite bool_decide_eq_true_2 by done.
      subst σa. reflexivity. }
  rewrite (bind_ok _ _ _ _ _ Hblock).
  erewrite (bind_ok _ _ σc ()); [|apply liftW_ok, run_check_ok, Hhost].
  unfold bind, liftW, subprocess_run. cbn [world].
  eexists. split; [reflexivity|]. cbn [self world record fs trace cmd_effect].
  rewrite bool_decide_eq_true_2 by done. rewrite Hfs.
  split; [exact Hflag|]. split.
  - destruct (read_text _ _); cbn [trace set_fs]; rewrite !elem_of_app; tauto.
  - destruct (read_text _ _); cbn [fs set_fs]; by rewrite ?Hfs.
Qed.

Lemma failed_backup_still_removes_original_witness :
  ∃ σ',
    _handle_resolv_conf
      (Scenario.env Scenario.plain_tree
         (Scenario.fails_on (SudoCpArchive "mnt/etc/resolv.conf" "mnt/etc/resolv.conf.bak") 1)
         None Scenario.no_fault)
      (Scenario.mounted Scenario.plain_tree) = Ok () σ' ∧
    resolv_conf_existed (self σ') = false ∧
    (Log Warning "Failed to backup resolv.conf. Proceeding without backup."
       ∈ trace (world σ')) ∧
    fs (world σ') =
      match read_text
              (delete (resolv_path (target_mount_point (self (Scenario.mounted Scenario.plain_tree))))
                 (fs (world (Scenario.mounted Scenario.plain_tree)))) "/etc/resolv.conf" with
      | Some host =>
          <[resolv_path (target_mount_point (self (Scenario.mounted Scenario.plain_tree)))
              := File host]>
            (delete (resolv_path (target_mount_point (self (Scenario.mounted Scenario.plain_tree))))
               (fs (world (Scenario.mounted Scenario.plain_tree))))
      | None =>
          delete (resolv_path (target_mount_point (self (Scenario.mounted Scenario.plain_tree))))
            (fs (world (Scenario.mounted Scenario.plain_tree)))
      end.
Proof.
  apply (failed_backup_still_removes_original
           (Scenario.env Scenario.plain_tree
              (Scenario.fails_on
                 (SudoCpArchive "mnt/etc/resolv.conf" "mnt/etc/resolv.conf.bak") 1)
              None Scenario.no_fault)
           (Scenario.mounted Scenario.plain_tree)).
  - vm_compute. reflexivity.
  - intros w. vm_compute. intros H. discriminate H.
  - intros w. vm_compute. reflexivity.
  - intros w. vm_compute. reflexivity.
Defined.

Lemma backup_attempt E resolv backup σ :
  ∃ σ',
    try_except is_CalledProcessError
      (liftW (subprocess_run_check E (SudoCpArchive resolv backup)) ;;
       set_resolv_conf_existed true)
      (λ _, liftW (log Warning "Failed to backup resolv.conf. Proceeding without backup.") ;;
            set_resolv_conf_existed false) σ = Ok () σ' ∧
    resolv_conf_existed (self σ') =
      bool_decide (exit_status E (SudoCpArchive resolv backup) (world σ) = 0).
Proof.
  unfold try_except, bind, liftW, subprocess_run_check, subprocess_run, bind, ret, raise.
  cbn [returncode].
  destruct (bool_decide (exit_status E _ (world σ) = 0)); eexists; split; reflexivity.
Qed.

(** X7. Whenever [_handle_resolv_conf] returns, the flag it leaves is
    this: with a resolver file (or link) in place beforehand, whether the
    backup command exited with zero; with none, the flag the object had. *)
Theorem shim_flag_records_backup (E : Env) (σ σ' : St) :
  let resolv := resolv_path (target_mount_point (self σ)) in
  let backup := backup_path (target_mount_point (self σ)) in
  _handle_resolv_conf E σ = Ok () σ' →
  resolv_conf_existed (self σ') =
    if os_path_lexists (world σ) resolv then
      bool_decide
        (exit_status E (SudoCpArchive resolv backup)
           (record (Log Info "Backing up existing resolv.conf (may be a symlink)") (world σ))
         = 0)
    else resolv_conf_existed (self σ).
Proof.
  intros resolv backup. rewrite install_steps. cbv zeta. fold resolv backup.
  intros H. unfold bind at 1 in H.
  match type of H with
  | match ?blk σ with _ => _ end = _ =>
      assert (∀ σ1, blk σ = Ok () σ1 →
                resolv_conf_existed (self σ1) =
                  if os_path_lexists (world σ) resolv then
                    bool_decide
                      (exit_status E (SudoCpArchive resolv backup)
                         (record (Log Info "Backing up existing resolv.conf (may be a symlink)")
                            (world σ)) = 0)
                  else resolv_conf_existed (self σ)) as Hblk;
      [|destruct (blk σ) as [[] σ1|] eqn:H1; [specialize (Hblk σ1 eq_refl)|done]]
  end.
  { intros σ1. destruct (os_path_lexists (world σ) resolv); cbn [when].
    - rewrite (bind_ok _ _ _ _ _ (log_ok _ _ σ)).
      destruct (backup_attempt E resolv backup
                  (mkSt (self σ)
                     (record (Log Info "Backing up existing resolv.conf (may be a symlink)")
                        (world σ)))) as (σb & Hb & Hflag).
      rewrite (bind_ok _ _ _ _ _ Hb).
      intros (w' & _ & ->)%liftW_returned. exact Hflag.
    - by intros [= <-]. }
  unfold bind at 1 in H.
  destruct (liftW _ σ1) as [[] σ2|] eqn:H2; [|done].
  apply liftW_returned in H2 as (w2 & _ & ->).
  unfold bind, liftW, subprocess_run, ret in H. injection H as <-. exact Hblk.
Qed.

Lemma shim_flag_records_backup_witness :
  resolv_conf_existed
    (self (state_of (_handle_resolv_conf (Scenario.calm Scenario.linked_tree)
                       (Scenario.mounted Scenario.linked_tree)))) =
  if os_path_lexists (world (Scenario.mounted Scenario.linked_tree))
       (resolv_path (target_mount_point (self (Scenario.mounted Scenario.linked_tree))))
  then
    bool_decide
      (exit_status (Scenario.calm Scenario.linked_tree)
         (SudoCpArchive
            (resolv_path (target_mount_point (self (Scenario.mounted Scenario.linked_tree))))
            (backup_path (target_mount_point (self (Scenario.mounted Scenario.linked_tree)))))
         (record (Log Info "Backing up existing resolv.conf (may be a symlink)")
            (world (Scenario.mounted Scenario.linked_tree))) = 0)
  else resolv_conf_existed (self (Scenario.mounted Scenario.linked_tree)).
Proof.
  apply (shim_flag_records_backup (Scenario.calm Scenario.linked_tree)
           (Scenario.mounted Scenario.linked_tree)).
  vm_compute. reflexivity.
Defined.

(** ** Manifest generation, continued *)




(** ** The delegation *)

(** X9. When the configuration file or the root path does not exist,
    [do_chrootfs] ends with [SystemExit(1)] after one error record: the
    chroot engine is not invoked and no file is touched. *)
Theorem delegation_checks_its_paths (E : Env) (args : Namespace.t) (σ : St) :
  os_path_exists (world σ) (Namespace.config args) = false ∨
  os_path_exists (world σ) (Namespace.rootfspath args) = false →
  ∃ what σ',
    do_chrootfs E args σ = Raise (SystemExit 1) σ' ∧
    fs (world σ') = fs (world σ) ∧
    trace (world σ') = trace (world σ) ++ [Log Error what].
Proof.
  intros H. unfold do_chrootfs. unfold bind at 1. cbn [ask].
  destruct (os_path_exists (world σ) (Namespace.config args)) eqn:Hc; cbn [negb when].
  - destruct H as [?|Hr]; [done|].
    unfold bind at 1. cbn [ret]. unfold bind at 1. cbn [ask]. rewrite Hr. cbn [negb when].
    eexists _, _. split; [reflexivity|]. by split.
  - eexists _, _. split; [reflexivity|]. by split.
Qed.

Lemma delegation_checks_its_paths_witness :
  ∃ what σ',
    do_chrootfs (Scenario.calm Scenario.bare_tree)
      (Namespace.mk "missing.yaml" "mnt" PyNone false false)
      (Scenario.mounted Scenario.bare_tree) = Raise (SystemExit 1) σ' ∧
    fs (world σ') = fs (world (Scenario.mounted Scenario.bare_tree)) ∧
    trace (world σ') = trace (world (Scenario.mounted Scenario.bare_tree)) ++ [Log Error what].
Proof.
  apply (delegation_checks_its_paths (Scenario.calm Scenario.bare_tree)
           (Namespace.mk "missing.yaml" "mnt" PyNone false false)
           (Scenario.mounted Scenario.bare_tree)).
  left. vm_compute. reflexivity.
Defined.

(** X10. [do_chrootfs] looks at its flags only after the chroot engine
    has run.  With both paths in place and the engine returning: when
    [generate_sbom] or [overwrite] is set without an output name it ends
    with [SystemExit(1)], the root already changed; when no flag and no
    output name is given it returns without generating any manifest. *)
Theorem delegation_checks_flags_after_apply (E : Env) (args : Namespace.t) (σ : St) :
  os_path_exists (world σ) (Namespace.config args) = true →
  os_path_exists (world σ) (Namespace.rootfspath args) = true →
  (chimg_apply E (Namespace.config args) (Namespace.rootfspath args) (world σ)).2 = None →
  truthy (Namespace.output_files_name args) = false →
  ∃ σ',
    do_chrootfs E args σ =
      (if Namespace.generate_sbom args || Namespace.overwrite args
       then Raise (SystemExit 1) σ' else Ok () σ') ∧
    fs (world σ') =
      (chimg_apply E (Namespace.config args) (Namespace.rootfspath args) (world σ)).1 ∧
    trace (world σ') =
      trace (world σ)
      ++ ChimgApply (Namespace.config args) (Namespace.rootfspath args)
         :: (if Namespace.generate_sbom args || Namespace.overwrite args
             then [Log Error
                     "If --generate-sbom or --overwrite is set, --output-files-name must be specified."]
             else []).
Proof.
  intros Hc Hr Happly Hname. unfold do_chrootfs.
  unfold bind at 1. cbn [ask]. rewrite Hc. cbn [negb when].
  unfold bind at 1. cbn [ret]. unfold bind at 1. cbn [ask]. rewrite Hr. cbn [negb when].
  unfold bind at 1. cbn [ret].
  unfold bind at 1. unfold liftW at 1, chroot_apply. rewrite Happly.
  rewrite Hname. cbn [negb]. rewrite andb_true_r.
  destruct (Namespace.generate_sbom args || Namespace.overwrite args); cbn [when].
  - eexists. split; [reflexivity|]. cbn [world record fs trace set_fs].
    split; [done|]. by rewrite <- app_assoc.
  - eexists. split; [reflexivity|]. by split.
Qed.

Lemma delegation_checks_flags_after_apply_witness :
  ∃ σ',
    do_chrootfs (Scenario.calm Scenario.bare_tree)
      (Namespace.mk "cfg.yaml" "mnt" PyNone false true)
      (Scenario.mounted Scenario.bare_tree) = Raise (SystemExit 1) σ' ∧
    (ChimgApply "cfg.yaml" "mnt" ∈ trace (world σ')).
Proof.
  destruct (delegation_checks_flags_after_apply (Scenario.calm Scenario.bare_tree)
              (Namespace.mk "cfg.yaml" "mnt" PyNone false true)
              (Scenario.mounted Scenario.bare_tree))
    as (σ' & Hrun & _ & Htrace).
  - vm_compute. reflexivity.
  - vm_compute. reflexivity.
  - reflexivity.
  - reflexivity.
  - exists σ'. split; [exact Hrun|]. rewrite Htrace.
    apply elem_of_app. right. apply elem_of_cons. by left.
Defined.

(** ** The entry point *)

(** X11. [customize_image_entry_point] checks the configuration file
    first and the input image second; when one is missing it ends with
    [SystemExit(1)] after one error record, before the object is built:
    nothing is touched. *)
Theorem entry_point_checks_its_files (E : Env) (args : cli.customize_image_args) (w : World) :
  os_path_exists w (cli.chimg_config_file args) = false ∨
  os_path_exists w (cli.input_image_file args) = false →
  customize_image_entry_point E args w =
    Raise (SystemExit 1)
      (record
         (Log Error
            (if os_path_exists w (cli.chimg_config_file args)
             then "input image file " +:+ cli.input_image_file args +:+ " does not exist"
             else "chimg config file " +:+ cli.chimg_config_file args +:+ " does not exist"))
         w).
Proof.
  intros H. unfold customize_image_entry_point. unfold bind at 1. cbn [ask].
  destruct (os_path_exists w (cli.chimg_config_file args)) eqn:Hc; cbn [negb when].
  - destruct H as [?|Hi]; [done|].
    unfold bind at 1. cbn [ret]. unfold bind at 1. cbn [ask]. rewrite Hi. reflexivity.
  - reflexivity.
Qed.

Lemma entry_point_checks_its_files_witness :
  customize_image_entry_point (Scenario.calm Scenario.bare_tree)
    (cli.mk "absent.img" "out.qcow2" "mnt" "cfg.yaml" false) Scenario.host =
  Raise (SystemExit 1)
    (record
       (Log Error
          (if os_path_exists Scenario.host
                (cli.chimg_config_file (cli.mk "absent.img" "out.qcow2" "mnt" "cfg.yaml" false))
           then "input image file " +:+
                cli.input_image_file (cli.mk "absent.img" "out.qcow2" "mnt" "cfg.yaml" false)
                +:+ " does not exist"
           else "chimg config file " +:+
                cli.chimg_config_file (cli.mk "absent.img" "out.qcow2" "mnt" "cfg.yaml" false)
                +:+ " does not exist"))
       Scenario.host).
Proof.
  apply (entry_point_checks_its_files (Scenario.calm Scenario.bare_tree)
           (cli.mk "absent.img" "out.qcow2" "mnt" "cfg.yaml" false) Scenario.host).
  right. vm_compute. reflexivity.
Defined.

(** ** The working image *)

Lemma removal_without_working_image E σ :
  os_path_exists (world σ) (modified_image_file (self σ)) = false →
  _remove_existing_modified_image E σ = Ok () σ.
Proof.
  intros H. unfold _remove_existing_modified_image, bind, get_self, ask.
  by rewrite H.
Qed.

(** X12. Removing the stale working image is idempotent: once
    [_remove_existing_modified_image] has returned, a second call returns
    at once and changes nothing. *)
Theorem stale_image_removal_is_idempotent (E : Env) (σ σ' : St) :
  _remove_existing_modified_image E σ = Ok () σ' →
  _remove_existing_modified_image E σ' = Ok () σ'.
Proof.
  intros H. apply removal_without_working_image. revert H.
  unfold _remove_existing_modified_image. unfold bind at 1. cbn [get_self ask].
  unfold bind at 1. cbn [ask].
  destruct (os_path_exists (world σ) (modified_image_file (self σ))) eqn:Hex; cbn [when].
  - unfold bind at 1.
    destruct (liftW (os_remove E (modified_image_file (self σ))) σ) as [[] σ1|] eqn:H1;
      [|done].
    apply liftW_returned in H1 as (w1 & Hrm & ->).
    rewrite log_ok. intros [= <-]. cbn [self world].
    by apply os_remove_removes in Hrm.
  - by intros [= <-].
Qed.

Lemma stale_image_removal_is_idempotent_witness :
  _remove_existing_modified_image (Scenario.calm Scenario.bare_tree)
    (state_of (_remove_existing_modified_image (Scenario.calm Scenario.bare_tree)
                 (Scenario.mounted Scenario.bare_tree)))
  = Ok () (state_of (_remove_existing_modified_image (Scenario.calm Scenario.bare_tree)
                       (Scenario.mounted Scenario.bare_tree))).
Proof.
  apply (stale_image_removal_is_idempotent (Scenario.calm Scenario.bare_tree)
           (Scenario.mounted Scenario.bare_tree)).
  vm_compute. reflexivity.
Defined.

(** X13. Manifest generation, whatever its arguments and however it
    ends, runs no mount or unmount command and leaves the mount table as
    it was. *)
Theorem manifest_generation_leaves_mounts
    (E : Env) (base sbom_log : pyval) (gen ov : bool) (σ : St) :
  mounts_untouched (world σ) (world (state_of (create_manifest E base gen sbom_log ov σ))).
Proof.
  assert (respects (on_world mounts_untouched) (create_manifest E base gen sbom_log ov)) as R.
  { unfold create_manifest, check_artifact, generate_sbom_step, os_remove, open_write.
    respect mounts_step. }
  apply (R σ).
Qed.

(** ** Staging *)

Lemma isfile_read w p : os_path_isfile w p = true → ∃ c, read_text (fs w) p = Some c.
Proof.
  unfold os_path_isfile, read_text. destruct (stat (fs w) p) as [[]|]; try done. eauto.
Qed.

(** X14. When [_convert_or_copy_image] returns for an input that is a
    regular file, with nothing in the place of the working image (as
    [setup] leaves it; a copy onto a directory would land inside it), the
    working image is a regular file, and the recorded input type is
    [qcow2] exactly when the output of [file] mentions QCOW and [raw]
    otherwise. *)
Theorem staging_leaves_working_image (E : Env) (σ σ' : St) :
  os_path_isfile (world σ) (input_image_file (self σ)) = true →
  fs (world σ) !! modified_image_file (self σ) = None →
  _convert_or_copy_image E σ = Ok () σ' →
  os_path_isfile (world σ') (modified_image_file (self σ)) = true ∧
  input_image_type (self σ') =
    (if str_contains "QCOW" (stdout_of E (FileType (input_image_file (self σ))) (world σ))
     then "qcow2" else "raw").
Proof.
  intros (c & Hc)%isfile_read _.
  unfold _convert_or_copy_image. unfold bind at 1. cbn [get_self ask].
  set (s := self σ). fold s in Hc.
  unfold bind at 1.
  destruct (liftW (subprocess_check_output E (FileType (input_image_file s))) σ)
    as [info σ1|] eqn:H1; [|done].
  assert (info = stdout_of E (FileType (input_image_file s)) (world σ) ∧
          self σ1 = s ∧ fs (world σ1) = fs (world σ)) as (-> & Hs1 & Hfs1).
  { unfold liftW, subprocess_check_output, bind, subprocess_run, ret, raise in H1.
    cbn [returncode stdout] in H1. destruct (bool_decide _); [|done].
    by injection H1 as <- <-. }
  unfold bind at 1.
  destruct (str_contains "QCOW" _).
  - match goal with
    | |- match ?m σ1 with _ => _ end = _ → _ => destruct (m σ1) as [[] σ2|] eqn:H2; [|done]
    end.
    rewrite log_ok. intros [= <-]. cbn [self world].
    rewrite (bind_ok _ _ _ _ _ (log_ok _ _ σ1)) in H2.
    unfold bind at 1 in H2.
    match type of H2 with
    | match ?m ?st with _ => _ end = _ => destruct (m st) as [[] σ3|] eqn:H3; [|done]
    end.
    apply liftW_returned in H3 as (w3 & Hrun & ->).
    injection H2 as <-. cbn [self world input_image_type].
    split; [|done].
    unfold subprocess_run_check, bind, subprocess_run, ret, raise in Hrun.
    cbn [returncode world record] in Hrun.
    destruct (bool_decide (exit_status E _ _ = 0)) eqn:Hrc; [|done].
    injection Hrun as <-. cbn [cmd_effect fs record]. rewrite Hrc, Hfs1, Hc.
    unfold os_path_isfile, stat. simpl. by rewrite lookup_insert_eq.
  - match goal with
    | |- match ?m σ1 with _ => _ end = _ → _ => destruct (m σ1) as [[] σ2|] eqn:H2; [|done]
    end.
    rewrite log_ok. intros [= <-]. cbn [self world].
    rewrite (bind_ok _ _ _ _ _ (log_ok _ _ σ1)) in H2.
    unfold bind at 1 in H2.
    match type of H2 with
    | match ?m ?st with _ => _ end = _ => destruct (m st) as [[] σ3|] eqn:H3; [|done]
    end.
    apply liftW_returned in H3 as (w3 & Hrun & ->).
    injection H2 as <-. cbn [self world input_image_type].
    split; [|done].
    unfold shutil_copy, os_call in Hrun. cbn [world] in Hrun.
    destruct (os_fault E _ _); [done|]. cbn [os_effect fs record] in Hrun.
    rewrite Hfs1, Hc in Hrun. injection Hrun as <-.
    unfold os_path_isfile, stat. simpl. by rewrite lookup_insert_eq.
Qed.

Lemma staging_leaves_working_image_witness :
  os_path_isfile
    (world (state_of (_convert_or_copy_image (Scenario.calm Scenario.bare_tree) Scenario.start)))
    (modified_image_file (self Scenario.start)) = true ∧
  input_image_type
    (self (state_of (_convert_or_copy_image (Scenario.calm Scenario.bare_tree) Scenario.start)))
    = (if str_contains "QCOW"
            (stdout_of (Scenario.calm Scenario.bare_tree)
               (FileType (input_image_file (self Scenario.start))) (world Scenario.start))
       then "qcow2" else "raw").
Proof.
  apply (staging_leaves_working_image (Scenario.calm Scenario.bare_tree) Scenario.start).
  - vm_compute. reflexivity.
  - vm_compute. reflexivity.
  - vm_compute. reflexivity.
Defined.


(** ** An input named as the working image *)

Lemma resolve_insert_absent n (m : gmap string node) p q v x :
  m !! q = None → resolve n m p = Some x → resolve n (<[q := v]> m) p = Some x.
Proof.
  intros Hq. revert p. induction n as [|n IH]; intros p; simpl.
  - destruct (decide (p = q)) as [->|Hne].
    + rewrite Hq. done.
    + rewrite lookup_insert_ne by done. done.
  - destruct (decide (p = q)) as [->|Hne].
    + rewrite Hq. done.
    + rewrite lookup_insert_ne by done. destruct (m !! p) as [[]|]; auto.
Qed.

Lemma makedirs_keeps_files E d w w' p x :
  os_makedirs E d w = Ok () w' → stat (fs w) p = Some x → stat (fs w') p = Some x.
Proof.
  unfold os_makedirs, os_call. destruct (os_fault E _ _); [done|].
  cbn [os_effect]. destruct (fs w !! d) eqn:Hd.
  - destruct (stat (fs w) d) as [[]|]; try done. by intros [= <-].
  - intros [= <-]. cbn [fs record set_fs]. by apply resolve_insert_absent.
Qed.

Lemma ensure_paths_keeps_files E σ σ1 :
  (liftW (log Info "Setting up image customizer...") ;; _ensure_paths E) σ = Ok () σ1 →
  self σ1 = self σ ∧
  ∀ p x, stat (fs (world σ)) p = Some x → stat (fs (world σ1)) p = Some x.
Proof.
  unfold bind at 1. unfold liftW at 1, log at 1.
  unfold _ensure_paths, bind, get_self, ask. cbn [self world].
  destruct (nonempty _); cbn [when ret].
  - unfold liftW.
    destruct (os_makedirs E (os_path_dirname _) _) as [[] w1|] eqn:H1; [|done].
    cbn [self world].
    destruct (os_makedirs E (target_mount_point _) w1) as [[] w2|] eqn:H2; [|done].
    intros [= <-]. split; [done|]. intros p x Hp. cbn [world].
    eapply makedirs_keeps_files; [exact H2|].
    eapply makedirs_keeps_files; [exact H1|]. exact Hp.
  - unfold liftW. cbn [self world].
    destruct (os_makedirs E (target_mount_point _) _) as [[] w2|] eqn:H2; [|done].
    intros [= <-]. split; [done|]. intros p x Hp. cbn [world].
    eapply makedirs_keeps_files; [exact H2|]. exact Hp.
Qed.

(** The removal and the validation, when the working image is the
    input. *)
Lemma self_named_staging_raises E σ :
  modified_image_file (self σ) = input_image_file (self σ) →
  ∃ e σ', (_remove_existing_modified_image E ;; _validate_input_image_exists) σ = Raise e σ'.
Proof.
  intros Heq. unfold bind at 1.
  destruct (_remove_existing_modified_image E σ) as [[] σ1|e σ1] eqn:Hrm; [|eauto].
  assert (self σ1 = self σ ∧ os_path_isfile (world σ1) (input_image_file (self σ)) = false)
    as [Hs Hno].
  { revert Hrm. unfold _remove_existing_modified_image, bind, get_self, ask. rewrite Heq.
    destruct (os_path_exists (world σ) _) eqn:Hex; cbn [when ret].
    - unfold liftW, os_remove, os_call, log.
      destruct (os_fault E _ _); [done|]. cbn [os_effect].
      destruct (fs (world σ) !! _); [|done]. cbn [world self].
      intros [= <-]. split; [done|]. cbn [world].
      unfold os_path_isfile. cbn [fs record set_fs]. by rewrite stat_delete.
    - intros [= <-]. split; [done|].
      unfold os_path_exists in Hex. unfold os_path_isfile.
      destruct (stat _ _) as [n|]; [|done].
      apply bool_decide_eq_false in Hex. destruct Hex. eauto. }
  unfold _validate_input_image_exists, bind, get_self, ask. rewrite Hs, Hno.
  cbn [negb when]. eauto.
Qed.

(** Construction gives such a job for an input named [disk.modifying]. *)
Example self_named_is_constructed :
  __init__ "disk.modifying" "out.img" "mnt" "cfg.yaml" false Reruns.self_named_host
  = Ok (self Reruns.self_named) Reruns.self_named_host.
Proof. vm_compute. reflexivity. Qed.

(** X15. A job whose working image path is its input path (an input that
    already carries the suffix [.modifying]) cannot be set up: [setup]
    raises whatever the tools and the system answer. *)
Theorem self_named_input_cannot_be_set_up (E : Env) (σ : St) :
  modified_image_file (self σ) = input_image_file (self σ) →
  ∃ e σ', setup E σ = Raise e σ'.
Proof.
  intros Heq.
  assert (∃ e σ', staging E σ = Raise e σ') as (e & σ' & Hst).
  { unfold staging. rewrite (bind_ok _ _ _ _ _ (log_ok _ _ σ)).
    set (σ0 := mkSt (self σ) _).
    destruct (_ensure_paths E σ0) as [[] σ1|e σ1] eqn:H1;
      [|rewrite (bind_raise _ _ _ _ _ H1); eauto].
    rewrite (bind_ok _ _ _ _ _ H1).
    assert (self σ1 = self σ) as Hs.
    { revert H1. unfold _ensure_paths, bind, get_self, ask, liftW. cbn [self world].
      destruct (nonempty _); cbn [when ret].
      - destruct (os_makedirs E _ _) as [[] w1|]; [|done]. cbn [self world].
        destruct (os_makedirs E _ _) as [[] w2|]; [|done]. by intros [= <-].
      - cbn [self world]. destruct (os_makedirs E _ _) as [[] w2|]; [|done].
        by intros [= <-]. }
    destruct (self_named_staging_raises E σ1) as (e & σ' & Hr); [by rewrite Hs|].
    revert Hr. unfold bind.
    destruct (_remove_existing_modified_image E σ1) as [[] σ2|]; [|intros [= <- <-]; eauto].
    destruct (_validate_input_image_exists σ2) as [[] σ3|]; [done|].
    intros [= <- <-]. eauto. }
  exists e, σ'. rewrite setup_staged. by rewrite (bind_raise _ _ _ _ _ Hst).
Qed.

Lemma self_named_input_cannot_be_set_up_witness :
  ∃ e σ', setup (Scenario.calm Scenario.bare_tree) Reruns.self_named = Raise e σ'.
Proof.
  apply (self_named_input_cannot_be_set_up (Scenario.calm Scenario.bare_tree)
           Reruns.self_named).
  reflexivity.
Defined.

(** X16. Such a job loses its input: when the directories could be
    prepared, the input is a regular file and its removal is permitted,
    [setup] deletes the input as a stale working image and then raises
    [FileNotFoundError] for it. *)
Theorem self_named_input_is_deleted (E : Env) (σ σ1 : St) :
  modified_image_file (self σ) = input_image_file (self σ) →
  (liftW (log Info "Setting up image customizer...") ;; _ensure_paths E) σ = Ok () σ1 →
  os_path_isfile (world σ) (input_image_file (self σ)) = true →
  (∀ w, os_fault E (OsRemove (input_image_file (self σ))) w = None) →
  ∃ σ',
    setup E σ =
      Raise (FileNotFoundError ("Error: Input image file '" +:+ input_image_file (self σ) +:+
                                "' not found!")) σ' ∧
    fs (world σ') !! input_image_file (self σ) = None.
Proof.
  intros Heq H1 Hex Hf.
  destruct (ensure_paths_keeps_files _ _ _ H1) as [Hs Hkeep].
  assert (os_path_exists (world σ1) (input_image_file (self σ)) = true) as Hex1.
  { unfold os_path_isfile in Hex. unfold os_path_exists.
    destruct (stat (fs (world σ)) (input_image_file (self σ))) as [x|] eqn:Hx; [|done].
    apply bool_decide_eq_true. exists x. by apply Hkeep. }
  destruct (exists_lexists _ _ Hex1) as [n Hn].
  set (σ2 := mkSt (self σ1)
               (record (Log Info "Removed existing modified image file")
                  (record (Os (OsRemove (input_image_file (self σ))))
                     (set_fs (delete (input_image_file (self σ))) (world σ1))))).
  assert (_remove_existing_modified_image E σ1 = Ok () σ2) as Hrm.
  { unfold _remove_existing_modified_image, bind, get_self, ask. rewrite Hs, Heq, Hex1.
    cbn [when]. unfold liftW, os_remove, os_call, log. rewrite Hf. cbn [os_effect].
    rewrite Hn. cbn [self world]. unfold σ2. by rewrite ?Hs. }
  assert (_validate_input_image_exists σ2 =
          Raise (FileNotFoundError ("Error: Input image file '" +:+ input_image_file (self σ)
                                    +:+ "' not found!")) σ2) as Hval.
  { unfold _validate_input_image_exists, bind, get_self, ask.
    replace (self σ2) with (self σ) by (unfold σ2; by rewrite <- Hs).
    unfold σ2 at 1. cbn [self world].
    assert (os_path_isfile
              (record (Log Info "Removed existing modified image file")
                 (record (Os (OsRemove (input_image_file (self σ))))
                    (set_fs (delete (input_image_file (self σ))) (world σ1))))
              (input_image_file (self σ)) = false) as ->.
    { unfold os_path_isfile. cbn [fs record set_fs]. by rewrite stat_delete. }
    reflexivity. }
  exists σ2. split.
  - rewrite setup_staged.
    assert (staging E σ =
            Raise (FileNotFoundError ("Error: Input image file '" +:+
                                      input_image_file (self σ) +:+ "' not found!")) σ2) as Hst.
    { unfold staging. revert H1. rewrite !(bind_ok _ _ _ _ _ (log_ok _ _ σ)).
      intros H1. rewrite (bind_ok _ _ _ _ _ H1).
      rewrite (bind_ok _ _ _ _ _ Hrm). by rewrite (bind_raise _ _ _ _ _ Hval). }
    by rewrite (bind_raise _ _ _ _ _ Hst).
  - unfold σ2. cbn [world fs record set_fs]. by rewrite lookup_delete_eq.
Qed.

Lemma self_named_input_is_deleted_witness :
  ∃ σ',
    setup (Scenario.calm Scenario.bare_tree) Reruns.self_named =
      Raise (FileNotFoundError ("Error: Input image file '" +:+
                                input_image_file (self Reruns.self_named) +:+
                                "' not found!")) σ' ∧
    fs (world σ') !! input_image_file (self Reruns.self_named) = None.
Proof.
  apply (self_named_input_is_deleted (Scenario.calm Scenario.bare_tree) Reruns.self_named
           (state_of ((liftW (log Info "Setting up image customizer...") ;;
                       _ensure_paths (Scenario.calm Scenario.bare_tree))
                        Reruns.self_named))).
  - reflexivity.
  - vm_compute. reflexivity.
  - vm_compute. reflexivity.
  - intros w. reflexivity.
Defined.

(** ** Artifacts of an earlier run *)

Global Instance stays_absent_preorder p : PreOrder (stays_absent p).
Proof.
  split.
  - intros w. unfold stays_absent. tauto.
  - intros w1 w2 w3. unfold stays_absent. tauto.
Qed.



Lemma manifest_path_is_not_sbom B : manifest_file B ≠ sbom_file_name B.
Proof. unfold manifest_file, sbom_file_name. intros H%(inj (String.app B)). discriminate H. Qed.

Lemma filelist_path_is_not_sbom B : filelist_file B ≠ sbom_file_name B.
Proof. unfold filelist_file, sbom_file_name. intros H%(inj (String.app B)). discriminate H. Qed.

Ltac absent_step :=
  unfold stays_absent; cbn [fs record set_fs cmd_effect os_effect];
  repeat case_match; cbn [fs record set_fs];
  rewrite ?lookup_insert_ne by (first [apply manifest_path_is_not_sbom | apply filelist_path_is_not_sbom]);
  try done.

Lemma generation_leaves_sbom_absent E root B sbom_log :
  respects (on_world (stays_absent (sbom_file_name B))) (generate E root B sbom_log false).
Proof.
  unfold generate, open_write. cbn [when].
  respect ltac:(idtac).
  all: try (intros; absent_step).
  all: match goal with H : os_effect _ _ = inr _ |- _ => injection H as <- end; absent_step.
Qed.

Lemma file_entry_exists w p c : fs w !! p = Some (File c) → os_path_exists w p = true.
Proof.
  intros H. unfold os_path_exists, stat. simpl. rewrite H. by apply bool_decide_eq_true.
Qed.

(** A check with [overwrite] on leaves every other entry as it is. *)
Lemma check_keeps_other_entries E file p σ σ' :
  file ≠ p → check_artifact E true file σ = Ok () σ' →
  fs (world σ') !! p = fs (world σ) !! p.
Proof.
  intros Hne. unfold check_artifact, bind, ask.
  destruct (os_path_exists (world σ) file); cbn [andb negb].
  - unfold liftW at 1, log. cbn [world self]. unfold liftW, os_remove, os_call.
    cbn [world]. destruct (os_fault E _ _); [done|]. cbn [os_effect fs record].
    destruct (fs (world σ) !! file); [|done]. intros [= <-].
    cbn [world fs record set_fs]. by rewrite lookup_delete_ne.
  - by intros [= <-].
Qed.

Lemma check_removes_file E p c σ σ' :
  fs (world σ) !! p = Some (File c) → check_artifact E true p σ = Ok () σ' →
  fs (world σ') !! p = None.
Proof.
  intros Hp. unfold check_artifact, bind, ask.
  rewrite (file_entry_exists _ _ _ Hp). cbn [andb negb].
  unfold liftW at 1, log. cbn [world self]. unfold liftW, os_remove, os_call.
  cbn [world]. destruct (os_fault E _ _); [done|]. cbn [os_effect fs record].
  rewrite Hp. intros [= <-]. cbn [world fs record set_fs]. by rewrite lookup_delete_eq.
Qed.

(** X17. With [overwrite] on and SBOM generation off, as [main] always
    asks, [create_manifest] deletes the SBOM an earlier run left beside
    the output and writes none in its place: when it returns, the SBOM
    file is gone. *)
Theorem overwrite_deletes_stale_sbom (E : Env) (B sbom_log : pyval) (σ σ' : St) (c : string) :
  fs (world σ) !! sbom_file_name (py_str B) = Some (File c) →
  create_manifest E B false sbom_log true σ = Ok () σ' →
  fs (world σ') !! sbom_file_name (py_str B) = None.
Proof.
  intros Hp. rewrite create_manifest_steps. unfold bind at 1. cbn [for_each].
  unfold bind at 1.
  destruct (check_artifact E true (manifest_file (py_str B)) σ) as [[] σ1|] eqn:H1; [|done].
  unfold bind at 1.
  destruct (check_artifact E true (filelist_file (py_str B)) σ1) as [[] σ2|] eqn:H2; [|done].
  unfold bind at 1.
  destruct (check_artifact E true (sbom_file_name (py_str B)) σ2) as [[] σ3|] eqn:H3; [|done].
  cbn [ret]. intros Hgen.
  pose proof (check_keeps_other_entries _ _ _ _ _ (manifest_path_is_not_sbom _) H1) as K1.
  pose proof (check_keeps_other_entries _ _ _ _ _ (filelist_path_is_not_sbom _) H2) as K2.
  assert (fs (world σ3) !! sbom_file_name (py_str B) = None) as Hgone.
  { eapply check_removes_file; [|exact H3]. by rewrite K2, K1. }
  pose proof (generation_leaves_sbom_absent E (target_mount_point (self σ)) (py_str B)
                (sbom_log_path (py_str B) sbom_log) σ3) as Hkeep.
  rewrite Hgen in Hkeep. exact (Hkeep Hgone).
Qed.

Lemma overwrite_deletes_stale_sbom_witness :
  fs (world (state_of (create_manifest (Scenario.calm Scenario.bare_tree) (PyPath "out") false
                         PyNone true Reruns.with_old_sbom)))
    !! sbom_file_name (py_str (PyPath "out")) = None.
Proof.
  apply (overwrite_deletes_stale_sbom (Scenario.calm Scenario.bare_tree) (PyPath "out") PyNone
           Reruns.with_old_sbom _ "SPDXRef-DOCUMENT").
  - vm_compute. reflexivity.
  - vm_compute. reflexivity.
Defined.

(** ** Failure of the SBOM tool *)





(** ** The names construction derives *)






